(** * SceneManager: texture and material registries, transforms, lights

    A shallow embedding of [SceneManager.cpp] (CS-330 final project): the
    texture slot table, the material list, the transformation and shader
    state setters and the light set-up, followed by the properties the
    specification states about them.

    Conventions.
    - A C++ [int] is a [Z] in [-2^31, 2^31); a [GLuint] is a [Z] in
      [0, 2^32); conversions between the two are written out.
    - [float] values and the glm matrix library are taken through the
      interface [GLM]: float arithmetic is never evaluated.
    - OpenGL and the shader manager are collaborators: the model records
      the calls made on them, oldest first.
    - A member function is a computation of the monad [M]: it reads and
      updates the [World] and either returns or stops in a [fault] (an
      access outside [m_textureIDs], a call through a null
      [m_pShaderManager]), which is where C++ leaves the behaviour
      undefined.
    - The image decoder is the function [stbi_load] from file names to
      decoded images; console output ([std::cout]), the decoder's flip
      setting and the release of decoded pixel data ([stbi_image_free])
      are left out.
    - [PrepareScene] and [RenderScene] run over a [Session], the world
      together with the calls made on the mesh provider; the float
      arithmetic of [RenderScene] goes through the interface
      [FloatArith]. *)

From Stdlib Require Import ZArith QArith String List Lia.
From stdpp Require Import base list strings pretty.

Open Scope string_scope.
Open Scope list_scope.
Open Scope Z_scope.

(** ** Machine integers *)

Definition INT_MIN : Z := - 2 ^ 31.
Definition INT_MAX : Z := 2 ^ 31 - 1.
Definition GLuint_modulus : Z := 2 ^ 32.

(** The value range of [GLuint]. *)
Definition is_GLuint (u : Z) : Prop := 0 <= u < GLuint_modulus.

(** Conversion of an [int] to [GLuint] (as in [ID = -1]): modulo 2^32. *)
Definition GLuint_of_int (i : Z) : Z := i mod GLuint_modulus.

(** Conversion of a [GLuint] to [int] (as in [textureID = ...ID]):
    the value of the same 32 bits read as two's complement. *)
Definition int_of_GLuint (u : Z) : Z :=
  let w := u mod GLuint_modulus in
  if w <? 2 ^ 31 then w else w - GLuint_modulus.

(** ** glm *)

Record vec2 (F : Type) := mk_vec2 { x2 : F; y2 : F }.
Record vec3 (F : Type) := mk_vec3 { x3 : F; y3 : F; z3 : F }.
Record vec4 (F : Type) := mk_vec4 { r4 : F; g4 : F; b4 : F; a4 : F }.
Arguments mk_vec2 {F}. Arguments x2 {F}. Arguments y2 {F}.
Arguments mk_vec3 {F}. Arguments x3 {F}. Arguments y3 {F}. Arguments z3 {F}.
Arguments mk_vec4 {F}. Arguments r4 {F}. Arguments g4 {F}.
Arguments b4 {F}. Arguments a4 {F}.

(** The part of glm the scene manager uses.  [float_lit q] is the float a
    decimal literal such as [0.4f] denotes; [mat4_mul] is [operator*] on
    [glm::mat4]; the rest are [glm::radians], [glm::scale],
    [glm::rotate (angle, axis)] and [glm::translate] of
    [<glm/gtx/transform.hpp>]. *)
Class GLM := {
  float : Type;
  float_lit : Q -> float;
  mat4 : Type;
  mat4_mul : mat4 -> mat4 -> mat4;
  glm_radians : float -> float;
  glm_scale : vec3 float -> mat4;
  glm_rotate : float -> vec3 float -> mat4;
  glm_translate : vec3 float -> mat4
}.

(** ** Faults and the monad of member functions *)

Inductive fault :=
| OutOfBounds (index : Z)   (* m_textureIDs[index] with index outside 0..15 *)
| NullPointer.              (* a call through m_pShaderManager == NULL *)

Inductive result (A : Type) :=
| Ok (a : A)
| Undefined (why : fault).
Arguments Ok {A} a.
Arguments Undefined {A} why.

#[global] Instance result_ret : MRet result := fun A a => Ok a.
#[global] Instance result_bind : MBind result := fun A B f m =>
  match m with
  | Ok a => f a
  | Undefined why => Undefined why
  end.

(** ** Textures *)

Record TEXTURE_INFO := { tag : string; ID : Z }.

Definition set_ID (id : Z) (t : TEXTURE_INFO) : TEXTURE_INFO :=
  {| tag := tag t; ID := id |}.

Definition set_tag (s : string) (t : TEXTURE_INFO) : TEXTURE_INFO :=
  {| tag := s; ID := ID t |}.

(** [t.tag.compare (s) == 0] *)
Definition tag_is (s : string) (t : TEXTURE_INFO) : bool := String.eqb (tag t) s.

(** Modelled from the spec: [SceneManager.h] is not part of the sources;
    it declares [m_textureIDs] as an array of this many [TEXTURE_INFO]
    (the constructor initialises exactly the elements 0..15, and the
    specification gives the capacity as 16). *)
Definition TEXTURE_CAPACITY : nat := 16.

(** What [stbi_load] yields for a readable image. *)
Record stb_image := {
  width : Z;
  height : Z;
  colorChannels : Z;
  pixels : list Z
}.

(** ** OpenGL: the calls issued, oldest first *)

Inductive GLenum :=
| GL_TEXTURE_2D | GL_TEXTURE_WRAP_S | GL_TEXTURE_WRAP_T | GL_REPEAT
| GL_TEXTURE_MIN_FILTER | GL_TEXTURE_MAG_FILTER | GL_LINEAR
| GL_RGB8 | GL_RGB | GL_RGBA8 | GL_RGBA | GL_UNSIGNED_BYTE.

Inductive gl_call :=
| GenTextures (name : Z)              (* glGenTextures(1, &id) stored name *)
| DeleteTextures (name : Z)           (* glDeleteTextures(1, &id) *)
| BindTexture (target : GLenum) (name : Z)
| TexParameteri (target pname param : GLenum)
| TexImage2D (target : GLenum) (level : Z) (internalformat : GLenum)
    (w h border : Z) (format type : GLenum) (data : list Z)
| GenerateMipmap (target : GLenum)
| ActiveTexture (unit : Z).           (* glActiveTexture(GL_TEXTURE0 + unit) *)

(** [gl_next_name] is the name the next [glGenTextures] hands out.  OpenGL
    promises only a name that is not in use; the model counts upwards, and
    no property below depends on the values. *)
Record GLContext := {
  gl_next_name : Z;
  gl_calls : list gl_call
}.

Section Scene.

Context `{glm : GLM}.

(** ** The shading stage *)

Inductive uniform_value :=
| UBool (b : bool)
| UInt (i : Z)
| UFloat (f : float)
| UVec2 (v : vec2 float)
| UVec3 (v : vec3 float)
| UVec4 (v : vec4 float)
| UMat4 (m : mat4)
| USampler2D (slot : Z).

(** Modelled from the spec: [ShaderManager] is not part of the sources.
    The specification describes it as a sink that accepts named parameters
    of the kinds matrix4, vec2, vec3, vec4, float, int, bool and
    texture-sampler; the model keeps every value pushed, oldest first, and
    the value a name is bound to is the one pushed last ([uniform]). *)
Definition ShaderManager : Type := list (string * uniform_value).

Definition push (name : string) (v : uniform_value) (sh : ShaderManager)
  : ShaderManager := sh ++ [(name, v)].

Definition setBoolValue (name : string) (b : bool) := push name (UBool b).
Definition setIntValue (name : string) (i : Z) := push name (UInt i).
Definition setFloatValue (name : string) (f : float) := push name (UFloat f).
Definition setVec2Value (name : string) (v : vec2 float) := push name (UVec2 v).
Definition setVec3Value (name : string) (v : vec3 float) := push name (UVec3 v).
Definition setVec4Value (name : string) (v : vec4 float) := push name (UVec4 v).
Definition setMat4Value (name : string) (m : mat4) := push name (UMat4 m).
Definition setSampler2DValue (name : string) (slot : Z) :=
  push name (USampler2D slot).

(** The value a uniform is bound to: the last one pushed under its name. *)
Fixpoint uniform (sh : ShaderManager) (name : string) : option uniform_value :=
  match sh with
  | [] => None
  | (n, v) :: rest =>
      match uniform rest name with
      | Some later => Some later
      | None => if String.eqb n name then Some v else None
      end
  end.

(** ** The scene manager's state *)

Record OBJECT_MATERIAL := {
  diffuseColor : vec3 float;
  specularColor : vec3 float;
  shininess : float;
  material_tag : string
}.

(** [m_pShaderManager = None] is the null pointer.  [m_basicMeshes] (the
    mesh provider) takes no part in what follows and is left out. *)
Record SceneManager := {
  m_pShaderManager : option ShaderManager;
  m_textureIDs : list TEXTURE_INFO;
  m_loadedTextures : Z;
  m_objectMaterials : list OBJECT_MATERIAL
}.

Record World := {
  this : SceneManager;
  gl : GLContext
}.

Definition M (A : Type) : Type := World -> result (A * World).

#[global] Instance M_ret : MRet M := fun A a w => Ok (a, w).
#[global] Instance M_bind : MBind M := fun A B f m w =>
  match m w with
  | Ok (a, w') => f a w'
  | Undefined why => Undefined why
  end.

Definition stop {A} (why : fault) : M A := fun _ => Undefined why.

(** Reading and updating the members of [this]. *)
Definition member {A} (f : SceneManager -> A) : M A :=
  fun w => Ok (f (this w), w).

Definition update (f : SceneManager -> SceneManager) : M unit :=
  fun w => Ok (tt, {| this := f (this w); gl := gl w |}).

(** A member function that only reads [this]. *)
Definition call {A} (f : SceneManager -> result A) : M A :=
  fun w => match f (this w) with
           | Ok a => Ok (a, w)
           | Undefined why => Undefined why
           end.

Definition set_m_pShaderManager (p : option ShaderManager) (s : SceneManager) :=
  {| m_pShaderManager := p;
     m_textureIDs := m_textureIDs s;
     m_loadedTextures := m_loadedTextures s;
     m_objectMaterials := m_objectMaterials s |}.

Definition set_m_textureIDs (a : list TEXTURE_INFO) (s : SceneManager) :=
  {| m_pShaderManager := m_pShaderManager s;
     m_textureIDs := a;
     m_loadedTextures := m_loadedTextures s;
     m_objectMaterials := m_objectMaterials s |}.

Definition set_m_loadedTextures (n : Z) (s : SceneManager) :=
  {| m_pShaderManager := m_pShaderManager s;
     m_textureIDs := m_textureIDs s;
     m_loadedTextures := n;
     m_objectMaterials := m_objectMaterials s |}.

Definition set_m_objectMaterials (l : list OBJECT_MATERIAL) (s : SceneManager) :=
  {| m_pShaderManager := m_pShaderManager s;
     m_textureIDs := m_textureIDs s;
     m_loadedTextures := m_loadedTextures s;
     m_objectMaterials := l |}.

(** [m_textureIDs[index]] as an rvalue. *)
Definition texture_at (index : Z) (s : SceneManager) : result TEXTURE_INFO :=
  if index <? 0 then Undefined (OutOfBounds index)
  else match m_textureIDs s !! Z.to_nat index with
       | Some t => Ok t
       | None => Undefined (OutOfBounds index)
       end.

(** [m_textureIDs[index].field = ...]: [f] rewrites the element. *)
Definition texture_store (index : Z) (f : TEXTURE_INFO -> TEXTURE_INFO)
  : M unit :=
  t ← call (texture_at index);
  update (fun s => set_m_textureIDs (<[Z.to_nat index := f t]> (m_textureIDs s)) s).

(** [m_pShaderManager->set...Value (...)] without a null check. *)
Definition shader (set : ShaderManager -> ShaderManager) : M unit :=
  p ← member m_pShaderManager;
  match p with
  | Some sh => update (set_m_pShaderManager (Some (set sh)))
  | None => stop NullPointer
  end.

(** OpenGL calls. *)
Definition gl_do (c : gl_call) : M unit :=
  fun w => Ok (tt, {| this := this w;
                      gl := {| gl_next_name := gl_next_name (gl w);
                               gl_calls := gl_calls (gl w) ++ [c] |} |}).

(** [glGenTextures (1, &name)]: the name generated. *)
Definition glGenTextures : M Z :=
  fun w =>
    let name := GLuint_of_int (gl_next_name (gl w)) in
    Ok (name, {| this := this w;
                 gl := {| gl_next_name := gl_next_name (gl w) + 1;
                          gl_calls := gl_calls (gl w) ++ [GenTextures name] |} |}).

(** [for (int i = 0; i < n; i++) body (i)], for a body that leaves [n]
    alone: [count] iterations starting at [i]. *)
Fixpoint for_loop (count : nat) (i : Z) (body : Z -> M unit) : M unit :=
  match count with
  | O => mret tt
  | S k => body i;; for_loop k (i + 1) body
  end.

(** [if (NULL != m_pShaderManager) { body }] *)
Definition if_shader (body : M unit) : M unit :=
  p ← member m_pShaderManager;
  match p with
  | Some _ => body
  | None => mret tt
  end.

(** ** Global names *)

Definition g_ModelName : string := "model".
Definition g_ColorValueName : string := "objectColor".
Definition g_TextureValueName : string := "objectTexture".
Definition g_UseTextureName : string := "bUseTexture".
Definition g_UseLightingName : string := "bUseLighting".

(** ** SceneManager::SceneManager *)

Definition SceneManager_new (pShaderManager : option ShaderManager)
  : SceneManager :=
  {| m_pShaderManager := pShaderManager;
     m_textureIDs :=
       replicate TEXTURE_CAPACITY {| tag := "/0"; ID := GLuint_of_int (-1) |};
     m_loadedTextures := 0;
     m_objectMaterials := [] |}.

(** ** CreateGLTexture *)

(** The image decoder: what [stbi_load] finds under a file name. *)
Variable stbi_load : string -> option stb_image.

(** The statements after the upload (source lines 121 to 133).  The
    increment cannot overflow: the two stores before it succeed only
    for an index below the capacity. *)
Definition CreateGLTexture_register (textureID : Z) (tag : string) : M bool :=
  gl_do (GenerateMipmap GL_TEXTURE_2D);;
  gl_do (BindTexture GL_TEXTURE_2D 0);;
  n ← member m_loadedTextures;
  texture_store n (set_ID textureID);;
  n ← member m_loadedTextures;
  texture_store n (set_tag tag);;
  n ← member m_loadedTextures;
  update (set_m_loadedTextures (n + 1));;
  mret true.

Definition CreateGLTexture (filename : string) (tag : string) : M bool :=
  match stbi_load filename with
  | Some image =>
      textureID ← glGenTextures;
      gl_do (BindTexture GL_TEXTURE_2D textureID);;
      gl_do (TexParameteri GL_TEXTURE_2D GL_TEXTURE_WRAP_S GL_REPEAT);;
      gl_do (TexParameteri GL_TEXTURE_2D GL_TEXTURE_WRAP_T GL_REPEAT);;
      gl_do (TexParameteri GL_TEXTURE_2D GL_TEXTURE_MIN_FILTER GL_LINEAR);;
      gl_do (TexParameteri GL_TEXTURE_2D GL_TEXTURE_MAG_FILTER GL_LINEAR);;
      if colorChannels image =? 3 then
        gl_do (TexImage2D GL_TEXTURE_2D 0 GL_RGB8 (width image) (height image)
                 0 GL_RGB GL_UNSIGNED_BYTE (pixels image));;
        CreateGLTexture_register textureID tag
      else if colorChannels image =? 4 then
        gl_do (TexImage2D GL_TEXTURE_2D 0 GL_RGBA8 (width image) (height image)
                 0 GL_RGBA GL_UNSIGNED_BYTE (pixels image));;
        CreateGLTexture_register textureID tag
      else
        mret false
  | None => mret false
  end.

(** ** BindGLTextures, DestroyGLTextures *)

Definition BindGLTextures : M unit :=
  n ← member m_loadedTextures;
  for_loop (Z.to_nat n) 0 (fun i =>
    gl_do (ActiveTexture i);;
    t ← call (texture_at i);
    gl_do (BindTexture GL_TEXTURE_2D (ID t))).

Definition DestroyGLTextures : M unit :=
  n ← member m_loadedTextures;
  for_loop (Z.to_nat n) 0 (fun i =>
    name ← glGenTextures;
    texture_store i (set_ID name)).

(** ** FindTextureID, FindTextureSlot *)

(** The [while] loop of [FindTextureID] from [index] on; [remaining] is
    [m_loadedTextures - index], the number of slots still to look at.
    With none left the result is the initial [textureID = -1]. *)
Fixpoint FindTextureID_while (remaining : nat) (index : Z) (tag : string)
    (s : SceneManager) : result Z :=
  match remaining with
  | O => Ok (-1)
  | S k =>
      t ← texture_at index s;
      if tag_is tag t then Ok (int_of_GLuint (ID t))
      else FindTextureID_while k (index + 1) tag s
  end.

Definition FindTextureID (tag : string) (s : SceneManager) : result Z :=
  FindTextureID_while (Z.to_nat (m_loadedTextures s)) 0 tag s.

Fixpoint FindTextureSlot_while (remaining : nat) (index : Z) (tag : string)
    (s : SceneManager) : result Z :=
  match remaining with
  | O => Ok (-1)
  | S k =>
      t ← texture_at index s;
      if tag_is tag t then Ok index
      else FindTextureSlot_while k (index + 1) tag s
  end.

Definition FindTextureSlot (tag : string) (s : SceneManager) : result Z :=
  FindTextureSlot_while (Z.to_nat (m_loadedTextures s)) 0 tag s.

(** ** FindMaterial *)

(** The [while] loop of [FindMaterial] over the materials from [index]
    on: the pair is [bFound] and the caller's [material] afterwards.  A
    match copies the two colours and the shininess, not the tag. *)
Fixpoint FindMaterial_while (rest : list OBJECT_MATERIAL) (tag : string)
    (material : OBJECT_MATERIAL) : bool * OBJECT_MATERIAL :=
  match rest with
  | [] => (false, material)
  | m :: rest' =>
      if String.eqb (material_tag m) tag then
        (true, {| diffuseColor := diffuseColor m;
                  specularColor := specularColor m;
                  shininess := shininess m;
                  material_tag := material_tag material |})
      else FindMaterial_while rest' tag material
  end.

(** The function's result and the [material] reference afterwards.  The
    last statement is [return(true)], whatever [bFound] is. *)
Definition FindMaterial (tag : string) (material : OBJECT_MATERIAL)
    (s : SceneManager) : bool * OBJECT_MATERIAL :=
  if (length (m_objectMaterials s) =? 0)%nat then (false, material)
  else
    let '(bFound, material') :=
      FindMaterial_while (m_objectMaterials s) tag material in
    (true, material').

(** ** SetTransformations *)

Definition SetTransformations (scaleXYZ : vec3 float)
    (XrotationDegrees YrotationDegrees ZrotationDegrees : float)
    (positionXYZ : vec3 float) : M unit :=
  let scale := glm_scale scaleXYZ in
  let rotationX :=
    glm_rotate (glm_radians XrotationDegrees)
      (mk_vec3 (float_lit 1) (float_lit 0) (float_lit 0)) in
  let rotationY :=
    glm_rotate (glm_radians YrotationDegrees)
      (mk_vec3 (float_lit 0) (float_lit 1) (float_lit 0)) in
  let rotationZ :=
    glm_rotate (glm_radians ZrotationDegrees)
      (mk_vec3 (float_lit 0) (float_lit 0) (float_lit 1)) in
  let translation := glm_translate positionXYZ in
  let modelView :=
    mat4_mul (mat4_mul (mat4_mul (mat4_mul translation rotationZ) rotationY)
                rotationX) scale in
  if_shader (shader (setMat4Value g_ModelName modelView)).

(** ** SetShaderColor, SetShaderTexture, SetTextureUVScale *)

(** [setIntValue] takes an [int]: the [bool] arguments [false] and [true]
    arrive as [Z.b2z false = 0] and [Z.b2z true = 1]. *)
Definition SetShaderColor
    (redColorValue greenColorValue blueColorValue alphaValue : float)
  : M unit :=
  let currentColor :=
    mk_vec4 redColorValue greenColorValue blueColorValue alphaValue in
  if_shader (
    shader (setIntValue g_UseTextureName (Z.b2z false));;
    shader (setVec4Value g_ColorValueName currentColor)).

Definition SetShaderTexture (textureTag : string) : M unit :=
  if_shader (
    shader (setIntValue g_UseTextureName (Z.b2z true));;
    textureID ← call (FindTextureSlot textureTag);
    shader (setSampler2DValue g_TextureValueName textureID)).

Definition SetTextureUVScale (u v : float) : M unit :=
  if_shader (shader (setVec2Value "UVscale" (mk_vec2 u v))).

(** ** SetShaderMaterial *)

(** The local [OBJECT_MATERIAL material;] is declared without an
    initialiser: its colours and shininess start with indeterminate
    contents, which the caller of the model supplies as [material]. *)
Definition SetShaderMaterial (material : OBJECT_MATERIAL)
    (materialTag : string) : M unit :=
  materials ← member m_objectMaterials;
  if (0 <? length materials)%nat then
    found ← member (FindMaterial materialTag material);
    let bReturn : bool := fst found in
    let material : OBJECT_MATERIAL := snd found in
    if bReturn then
      shader (setVec3Value "material.diffuseColor" (diffuseColor material));;
      shader (setVec3Value "material.specularColor" (specularColor material));;
      shader (setFloatValue "material.shininess" (shininess material))
    else mret tt
  else mret tt.

(** ** DefineObjectMaterials *)

Definition whiteMat : OBJECT_MATERIAL :=
  {| diffuseColor := mk_vec3 (float_lit 1) (float_lit 1) (float_lit 1);
     specularColor :=
       mk_vec3 (float_lit (4 # 10)) (float_lit (4 # 10)) (float_lit (4 # 10));
     shininess := float_lit 32;
     material_tag := "default" |}.

Definition DefineObjectMaterials : M unit :=
  update (fun s => set_m_objectMaterials (m_objectMaterials s ++ [whiteMat]) s).

(** ** SetupSceneLights *)

(** ["pointLights[" + std::to_string (i) + "].bActive"] *)
Definition pointLight_bActive (i : Z) : string :=
  "pointLights[" +:+ pretty i +:+ "].bActive".

Definition SetupSceneLights : M unit :=
  shader (setBoolValue g_UseLightingName true);;
  shader (setBoolValue "spotLight.bActive" false);;
  for_loop 4 0 (fun i => shader (setBoolValue (pointLight_bActive i) false));;
  shader (setVec3Value "directionalLight.direction"
            (mk_vec3 (float_lit (- 3 # 10)) (float_lit (- 1)) (float_lit (- 3 # 10))));;
  shader (setVec3Value "directionalLight.ambient"
            (mk_vec3 (float_lit (2 # 10)) (float_lit (2 # 10)) (float_lit (2 # 10))));;
  shader (setVec3Value "directionalLight.diffuse"
            (mk_vec3 (float_lit (5 # 10)) (float_lit (5 # 10)) (float_lit (5 # 10))));;
  shader (setVec3Value "directionalLight.specular"
            (mk_vec3 (float_lit (7 # 10)) (float_lit (7 # 10)) (float_lit (7 # 10))));;
  shader (setBoolValue "directionalLight.bActive" true);;
  shader (setVec3Value "pointLights[0].position"
            (mk_vec3 (float_lit 0) (float_lit 5) (float_lit 1)));;
  shader (setVec3Value "pointLights[0].ambient"
            (mk_vec3 (float_lit (1 # 10)) (float_lit (9 # 100)) (float_lit (8 # 100))));;
  shader (setVec3Value "pointLights[0].diffuse"
            (mk_vec3 (float_lit (6 # 10)) (float_lit (5 # 10)) (float_lit (4 # 10))));;
  shader (setVec3Value "pointLights[0].specular"
            (mk_vec3 (float_lit (4 # 10)) (float_lit (3 # 10)) (float_lit (2 # 10))));;
  shader (setBoolValue "pointLights[0].bActive" true).

(** ** LoadSceneTextures *)

Definition LoadSceneTextures : M unit :=
  CreateGLTexture "textures/marble.png" "marbleFloor";;
  CreateGLTexture "textures/berry.jpg" "berry";;
  CreateGLTexture "textures/pancake_face.jpg" "pancakeFace";;
  CreateGLTexture "textures/brickWall.png" "brick";;
  BindGLTextures.

End Scene.

(** ** Runs of several loads *)

Section Loads.

Context `{glm : GLM}.
Variable stbi_load : string -> option stb_image.

(** [CreateGLTexture] for each (file name, tag) in turn; the results in
    call order. *)
Fixpoint load_each (loads : list (string * string)) : M (list bool) :=
  match loads with
  | [] => mret []
  | (filename, tag) :: rest =>
      b ← CreateGLTexture stbi_load filename tag;
      bs ← load_each rest;
      mret (b :: bs)
  end.

(** The worlds a new scene manager reaches by loads that all succeed,
    with the tags of those loads in call order. *)
Inductive loaded : list string -> World -> Prop :=
| loaded_new (pShaderManager : option ShaderManager) (g : GLContext) :
    loaded [] {| this := SceneManager_new pShaderManager; gl := g |}
| loaded_more (tags : list string) (w w' : World) (filename tag : string) :
    loaded tags w ->
    CreateGLTexture stbi_load filename tag w = Ok (true, w') ->
    loaded (tags ++ [tag]) w'.

End Loads.

(** ** The composition the specification gives for the model matrix *)

Section Compose.

Context `{glm : GLM}.

Definition degToRad (degrees : float) : float := glm_radians degrees.
Definition Translate (position : vec3 float) : mat4 := glm_translate position.
Definition Scale (scale : vec3 float) : mat4 := glm_scale scale.
Definition RotateX (angle : float) : mat4 :=
  glm_rotate angle (mk_vec3 (float_lit 1) (float_lit 0) (float_lit 0)).
Definition RotateY (angle : float) : mat4 :=
  glm_rotate angle (mk_vec3 (float_lit 0) (float_lit 1) (float_lit 0)).
Definition RotateZ (angle : float) : mat4 :=
  glm_rotate angle (mk_vec3 (float_lit 0) (float_lit 0) (float_lit 1)).

(** [Translate(position) * RotateZ(degToRad(rz)) * RotateY(degToRad(ry))
    * RotateX(degToRad(rx)) * Scale(scale)], the products taken from the
    left as C++ takes them. *)
Definition Compose (scale : vec3 float) (rx ry rz : float)
    (position : vec3 float) : mat4 :=
  mat4_mul
    (mat4_mul
       (mat4_mul
          (mat4_mul (Translate position) (RotateZ (degToRad rz)))
          (RotateY (degToRad ry)))
       (RotateX (degToRad rx)))
    (Scale scale).

End Compose.

(** ** An instance of glm for running the model

    Float and matrix expressions are kept as they are written, so that a
    run on concrete arguments shows which operations the code applied. *)

Inductive float_expr :=
| Lit (q : Q)
| Radians (degrees : float_expr).

Inductive mat4_expr :=
| MScale (v : vec3 float_expr)
| MRotate (angle : float_expr) (axis : vec3 float_expr)
| MTranslate (v : vec3 float_expr)
| MMul (a b : mat4_expr).

Definition symbolic : GLM :=
  {| float := float_expr;
     float_lit := Lit;
     mat4 := mat4_expr;
     mat4_mul := MMul;
     glm_radians := Radians;
     glm_scale := MScale;
     glm_rotate := MRotate;
     glm_translate := MTranslate |}.

(** A decoder for the runs: the scene's four images, one greyscale image
    (a single channel) and nothing else. *)
Definition sample_images (filename : string) : option stb_image :=
  if String.eqb filename "textures/marble.png" then
    Some {| width := 2; height := 1; colorChannels := 4;
            pixels := [200; 200; 200; 255; 90; 90; 90; 255] |}
  else if String.eqb filename "textures/berry.jpg" then
    Some {| width := 1; height := 1; colorChannels := 3; pixels := [180; 20; 60] |}
  else if String.eqb filename "textures/pancake_face.jpg" then
    Some {| width := 1; height := 1; colorChannels := 3; pixels := [210; 160; 90] |}
  else if String.eqb filename "textures/brickWall.png" then
    Some {| width := 1; height := 1; colorChannels := 4; pixels := [150; 60; 40; 255] |}
  else if String.eqb filename "textures/gray.png" then
    Some {| width := 1; height := 1; colorChannels := 1; pixels := [128] |}
  else None.

(** A new scene manager with an attached shader manager that has received
    nothing yet, and an OpenGL context that has generated no name. *)
Definition new_world : @World symbolic :=
  {| this := SceneManager_new (Some []);
     gl := {| gl_next_name := 1; gl_calls := [] |} |}.

(** Some contents for the uninitialised local of [SetShaderMaterial]. *)
Definition stale_material : @OBJECT_MATERIAL symbolic :=
  let stale : @float symbolic := Lit 7 in
  {| diffuseColor := mk_vec3 stale stale stale;
     specularColor := mk_vec3 stale stale stale;
     shininess := stale;
     material_tag := "" |}.

(** Sixteen loads, as many as the table has slots. *)
Definition sixteen_loads : list (string * string) :=
  replicate 16 ("textures/marble.png", "marbleFloor").

(** The world once [LoadSceneTextures] has run in [new_world]. *)
Definition textured_world : @World symbolic :=
  Eval vm_compute in
    match LoadSceneTextures sample_images new_world with
    | Ok (_, w) => w
    | Undefined _ => new_world
    end.

(** The world once [DefineObjectMaterials] has run after that. *)
Definition prepared_world : @World symbolic :=
  Eval vm_compute in
    match DefineObjectMaterials textured_world with
    | Ok (_, w) => w
    | Undefined _ => textured_world
    end.

(** The world once [sixteen_loads] have run in [new_world]. *)
Definition full_world : @World symbolic :=
  Eval vm_compute in
    match load_each sample_images sixteen_loads new_world with
    | Ok (_, w) => w
    | Undefined _ => new_world
    end.

(** Whether an OpenGL call releases a texture name. *)
Definition is_DeleteTextures (c : gl_call) : bool :=
  match c with
  | DeleteTextures _ => true
  | _ => false
  end.

(** The shader manager a world has attached, empty when there is none. *)
Definition shading_stage `{glm : GLM} (w : World) : ShaderManager :=
  match m_pShaderManager (this w) with
  | Some sh => sh
  | None => []
  end.

(** * More of the scene manager: definitions *)

(** ** The populated part of the slot table *)

Section Registry.

Context `{glm : GLM}.

(** The counter points into the table or just past its last slot. *)
Definition in_bounds (s : SceneManager) : Prop :=
  0 <= m_loadedTextures s <= Z.of_nat (length (m_textureIDs s)).

(** The slots the counter covers, in slot order. *)
Definition populated (s : SceneManager) : list TEXTURE_INFO :=
  take (Z.to_nat (m_loadedTextures s)) (m_textureIDs s).

(** The position of the first of [tags] equal to [query], counted from
    [index], and -1 when there is none. *)
Fixpoint first_index (query : string) (tags : list string) (index : Z) : Z :=
  match tags with
  | [] => -1
  | t :: rest =>
      if String.eqb t query then index
      else first_index query rest (index + 1)
  end.

(** The handle next to the first of the slots tagged [query], as
    [FindTextureID] converts it, and -1 when there is none. *)
Fixpoint first_handle (query : string) (slots : list TEXTURE_INFO) : Z :=
  match slots with
  | [] => -1
  | t :: rest =>
      if tag_is query t then int_of_GLuint (ID t)
      else first_handle query rest
  end.

(** Whether [stbi_load] decodes the file into 3 or 4 channels. *)
Definition loadable (stbi_load : string -> option stb_image)
    (filename : string) : bool :=
  match stbi_load filename with
  | Some image => (colorChannels image =? 3) || (colorChannels image =? 4)
  | None => false
  end.

(** The texture-unit bindings [BindGLTextures] issues for [slots],
    starting at unit [i]. *)
Fixpoint unit_bindings (slots : list TEXTURE_INFO) (i : Z) : list gl_call :=
  match slots with
  | [] => []
  | t :: rest =>
      ActiveTexture i :: BindTexture GL_TEXTURE_2D (ID t)
        :: unit_bindings rest (i + 1)
  end.

(** The names [count] calls of [glGenTextures] hand out from [next] on. *)
Fixpoint generated_names (count : nat) (next : Z) : list Z :=
  match count with
  | O => []
  | S k => GLuint_of_int next :: generated_names k (next + 1)
  end.

(** The slots [DestroyGLTextures] leaves in place of [slots]: each keeps
    its tag and receives the next generated name. *)
Fixpoint renamed (slots : list TEXTURE_INFO) (next : Z) : list TEXTURE_INFO :=
  match slots with
  | [] => []
  | t :: rest => set_ID (GLuint_of_int next) t :: renamed rest (next + 1)
  end.

(** The values of [m] copied into [material], whose tag stays. *)
Definition copied (m material : OBJECT_MATERIAL) : OBJECT_MATERIAL :=
  {| diffuseColor := diffuseColor m;
     specularColor := specularColor m;
     shininess := shininess m;
     material_tag := material_tag material |}.

(** A computation that leaves the slot table, the counter, the
    materials and OpenGL alone whenever it returns. *)
Definition keeps_registry {A : Type} (m : M A) : Prop :=
  forall (w : World) (a : A) (w' : World),
    m w = Ok (a, w') ->
    m_textureIDs (this w') = m_textureIDs (this w) /\
    m_loadedTextures (this w') = m_loadedTextures (this w) /\
    m_objectMaterials (this w') = m_objectMaterials (this w) /\
    gl w' = gl w.

(** A member function that, with a shader manager attached and the table
    within bounds, returns and has changed only the shader manager. *)
Definition pushes_only (m : M unit) : Prop :=
  forall (w : World) (sh : ShaderManager),
    m_pShaderManager (this w) = Some sh ->
    in_bounds (this w) ->
    exists sh',
      m w = Ok (tt, {| this := set_m_pShaderManager (Some sh') (this w);
                       gl := gl w |}).

End Registry.

(** ** Preparing and rendering the scene *)

(** The loads of [LoadSceneTextures], in call order. *)
Definition scene_textures : list (string * string) :=
  [("textures/marble.png", "marbleFloor");
   ("textures/berry.jpg", "berry");
   ("textures/pancake_face.jpg", "pancakeFace");
   ("textures/brickWall.png", "brick")].

(** Modelled from the spec: [ShapeMeshes] is not part of the sources.
    The specification describes it as a provider with one idempotent
    [Load<Shape>()] and one [Draw<Shape>()] per shape; the model records
    the calls made on it, oldest first, and not the OpenGL calls the
    provider makes itself. *)
Inductive mesh_call :=
| LoadPlaneMesh | LoadConeMesh | LoadCylinderMesh | LoadPrismMesh
| LoadTorusMesh | LoadSphereMesh | LoadTaperedCylinderMesh | LoadPyramid3Mesh
| DrawPlaneMesh | DrawCylinderMesh | DrawTorusMesh | DrawHalfSphereMesh
| DrawTaperedCylinderMesh.

(** The float operations [RenderScene] applies itself: the conversion of
    an [int], [operator+] and [operator*]. *)
Class FloatArith `{glm : GLM} := {
  float_of_int : Z -> float;
  float_add : float -> float -> float;
  float_mul : float -> float -> float
}.

Section Rendering.

Context `{arith : FloatArith}.

(** The world together with the calls made on [m_basicMeshes]. *)
Record Session := {
  world : World;
  m_basicMeshes : list mesh_call
}.

Definition Act (A : Type) : Type := Session -> result (A * Session).

#[global] Instance Act_ret : MRet Act := fun A a sc => Ok (a, sc).
#[global] Instance Act_bind : MBind Act := fun A B f m sc =>
  match m sc with
  | Ok (a, sc') => f a sc'
  | Undefined why => Undefined why
  end.

(** A member function that leaves [m_basicMeshes] alone. *)
Definition in_world {A : Type} (m : M A) : Act A :=
  fun sc => match m (world sc) with
            | Ok (a, w') =>
                Ok (a, {| world := w'; m_basicMeshes := m_basicMeshes sc |})
            | Undefined why => Undefined why
            end.

(** [m_basicMeshes->...()] *)
Definition mesh (c : mesh_call) : Act unit :=
  fun sc => Ok (tt, {| world := world sc;
                       m_basicMeshes := m_basicMeshes sc ++ [c] |}).

(** [for (int i = 0; i < n; ++i) body (i)] over the session. *)
Fixpoint for_each (count : nat) (i : Z) (body : Z -> Act unit) : Act unit :=
  match count with
  | O => mret tt
  | S k => body i;; for_each k (i + 1) body
  end.

(** A scene manager as the constructor leaves it: [m_basicMeshes] is a
    new mesh provider. *)
Definition Session_new (pShaderManager : option ShaderManager)
    (g : GLContext) : Session :=
  {| world := {| this := SceneManager_new pShaderManager; gl := g |};
     m_basicMeshes := [] |}.

Variable stbi_load : string -> option stb_image.

(** ** PrepareScene, RenderScene *)

Definition PrepareScene : Act unit :=
  in_world (LoadSceneTextures stbi_load);;
  in_world DefineObjectMaterials;;
  in_world SetupSceneLights;;
  mesh LoadPlaneMesh;;
  mesh LoadConeMesh;;
  mesh LoadCylinderMesh;;
  mesh LoadPrismMesh;;
  mesh LoadTorusMesh;;
  mesh LoadSphereMesh;;
  mesh LoadTaperedCylinderMesh;;
  mesh LoadPyramid3Mesh.

(** The body of the pancake loop of [RenderScene] for one [i]; [locals]
    gives the contents of the uninitialised local of each call of
    [SetShaderMaterial], the calls numbered from 0 in execution order. *)
Definition RenderScene_pancake (locals : Z -> OBJECT_MATERIAL) (i : Z)
  : Act unit :=
  let yHeight :=
    float_add (float_lit (3 # 10))
      (float_mul (float_of_int i) (float_lit (35 # 100))) in
  let scaleXYZ := mk_vec3 (float_lit 5) (float_lit (3 # 10)) (float_lit 5) in
  let positionXYZ := mk_vec3 (float_lit 0) yHeight (float_lit 0) in
  in_world (SetTransformations scaleXYZ (float_lit 0) (float_lit 0)
              (float_lit 0) positionXYZ);;
  in_world (SetShaderTexture "pancakeFace");;
  in_world (SetTextureUVScale (float_lit 1) (float_lit 1));;
  in_world (SetShaderMaterial (locals (3 + 2 * i)) "default");;
  mesh DrawCylinderMesh;;
  let ringScale :=
    mk_vec3 (float_lit (44 # 10)) (float_lit (44 # 10)) (float_lit (9 # 10)) in
  let ringPosition := mk_vec3 (float_lit 0) yHeight (float_lit 0) in
  in_world (SetTransformations ringScale (float_lit 90) (float_lit 0)
              (float_lit 0) ringPosition);;
  in_world (SetShaderTexture "pancakeFace");;
  in_world (SetShaderMaterial (locals (4 + 2 * i)) "default");;
  in_world (SetTextureUVScale (float_lit 1) yHeight);;
  mesh DrawTorusMesh.

(** The draw steps in source order.  The locals [scaleXYZ],
    [XrotationDegrees], ... of the source are written at their uses; a
    literal such as [-1.8f] is the float [float_lit] gives for it. *)
Definition RenderScene (locals : Z -> OBJECT_MATERIAL) : Act unit :=
  (* the floor *)
  in_world (SetTransformations
              (mk_vec3 (float_lit 20) (float_lit 1) (float_lit 10))
              (float_lit 0) (float_lit 0) (float_lit 0)
              (mk_vec3 (float_lit 0) (float_lit 0) (float_lit 0)));;
  in_world (SetShaderTexture "marbleFloor");;
  in_world (SetTextureUVScale (float_lit 5) (float_lit 5));;
  in_world (SetShaderMaterial (locals 0) "default");;
  mesh DrawPlaneMesh;;
  (* the back wall *)
  in_world (SetTransformations
              (mk_vec3 (float_lit 20) (float_lit 1) (float_lit 10))
              (float_lit 90) (float_lit 0) (float_lit 0)
              (mk_vec3 (float_lit 0) (float_lit 5) (float_lit (- 8))));;
  in_world (SetShaderTexture "brick");;
  in_world (SetTextureUVScale (float_lit 2) (float_lit 2));;
  in_world (SetShaderMaterial (locals 1) "default");;
  mesh DrawPlaneMesh;;
  (* the plate *)
  in_world (SetTransformations
              (mk_vec3 (float_lit 7) (float_lit (2 # 10)) (float_lit 7))
              (float_lit 0) (float_lit 0) (float_lit 0)
              (mk_vec3 (float_lit 0) (float_lit (1 # 10)) (float_lit 0)));;
  in_world (SetShaderColor (float_lit (90 # 100)) (float_lit (90 # 100))
              (float_lit (90 # 100)) (float_lit 1));;
  in_world (SetShaderMaterial (locals 2) "default");;
  mesh DrawTaperedCylinderMesh;;
  (* the pancakes *)
  for_each 6 0 (RenderScene_pancake locals);;
  (* the juice *)
  in_world (SetTransformations
              (mk_vec3 (float_lit (12 # 10)) (float_lit (28 # 10)) (float_lit (12 # 10)))
              (float_lit 180) (float_lit 0) (float_lit 0)
              (mk_vec3 (float_lit 8) (float_lit 3) (float_lit 0)));;
  in_world (SetShaderColor (float_lit 1) (float_lit (65 # 100)) (float_lit 0)
              (float_lit 1));;
  in_world (SetShaderMaterial (locals 15) "default");;
  mesh DrawTaperedCylinderMesh;;
  (* the glass *)
  in_world (SetTransformations
              (mk_vec3 (float_lit (14 # 10)) (float_lit 3) (float_lit (14 # 10)))
              (float_lit 180) (float_lit 0) (float_lit 0)
              (mk_vec3 (float_lit 8) (float_lit (325 # 100)) (float_lit 0)));;
  in_world (SetShaderColor (float_lit (9 # 10)) (float_lit (9 # 10)) (float_lit 1)
              (float_lit (2 # 10)));;
  in_world (SetShaderMaterial (locals 16) "glass");;
  mesh DrawTaperedCylinderMesh;;
  (* the bottle *)
  in_world (SetShaderColor (float_lit (9 # 10)) (float_lit (9 # 10)) (float_lit 1)
              (float_lit (2 # 10)));;
  in_world (SetShaderMaterial (locals 17) "glass");;
  in_world (SetTransformations
              (mk_vec3 (float_lit (9 # 10)) (float_lit (3 # 10)) (float_lit (9 # 10)))
              (float_lit 0) (float_lit 0) (float_lit 180)
              (mk_vec3 (float_lit 6) (float_lit (9 # 10)) (float_lit (- 18 # 10))));;
  mesh DrawHalfSphereMesh;;
  in_world (SetTransformations
              (mk_vec3 (float_lit (9 # 10)) (float_lit 4) (float_lit (9 # 10)))
              (float_lit 0) (float_lit 0) (float_lit 0)
              (mk_vec3 (float_lit 6) (float_lit (9 # 10)) (float_lit (- 18 # 10))));;
  mesh DrawCylinderMesh;;
  in_world (SetTransformations
              (mk_vec3 (float_lit (905 # 1000)) (float_lit (9 # 10))
                 (float_lit (905 # 1000)))
              (float_lit 0) (float_lit (- 6)) (float_lit 0)
              (mk_vec3 (float_lit 6) (float_lit (49 # 10)) (float_lit (- 18 # 10))));;
  mesh DrawHalfSphereMesh;;
  in_world (SetTransformations
              (mk_vec3 (float_lit (3 # 10)) (float_lit 2) (float_lit (3 # 10)))
              (float_lit 0) (float_lit 0) (float_lit 0)
              (mk_vec3 (float_lit 6) (float_lit (56 # 10)) (float_lit (- 18 # 10))));;
  mesh DrawCylinderMesh;;
  in_world (SetTransformations
              (mk_vec3 (float_lit (32 # 100)) (float_lit (32 # 100))
                 (float_lit (15 # 10)))
              (float_lit 90) (float_lit 0) (float_lit 0)
              (mk_vec3 (float_lit 6) (float_lit (74 # 10)) (float_lit (- 18 # 10))));;
  mesh DrawTorusMesh;;
  in_world (SetTransformations
              (mk_vec3 (float_lit (28 # 100)) (float_lit (28 # 100))
                 (float_lit (4 # 10)))
              (float_lit 90) (float_lit 0) (float_lit 0)
              (mk_vec3 (float_lit 6) (float_lit (76 # 10)) (float_lit (- 18 # 10))));;
  mesh DrawTorusMesh;;
  (* the syrup *)
  in_world (SetShaderColor (float_lit (35 # 100)) (float_lit (15 # 100))
              (float_lit (5 # 100)) (float_lit 1));;
  in_world (SetShaderMaterial (locals 18) "default");;
  in_world (SetTransformations
              (mk_vec3 (float_lit (91 # 100)) (float_lit (27 # 10))
                 (float_lit (91 # 100)))
              (float_lit 0) (float_lit 0) (float_lit 180)
              (mk_vec3 (float_lit 6) (float_lit (29 # 10)) (float_lit (- 18 # 10))));;
  mesh DrawCylinderMesh.

(** The same for the session, with the mesh calls [ds] appended. *)
Definition draws (m : Act unit) (ds : list mesh_call) : Prop :=
  forall (sc : Session) (sh : ShaderManager),
    m_pShaderManager (this (world sc)) = Some sh ->
    in_bounds (this (world sc)) ->
    exists sh',
      m sc
      = Ok (tt,
            {| world :=
                 {| this := set_m_pShaderManager (Some sh') (this (world sc));
                    gl := gl (world sc) |};
               m_basicMeshes := m_basicMeshes sc ++ ds |}).

(** The draw calls of one [RenderScene], in order. *)
Definition scene_draws : list mesh_call :=
  [DrawPlaneMesh; DrawPlaneMesh; DrawTaperedCylinderMesh]
  ++ concat (replicate 6 [DrawCylinderMesh; DrawTorusMesh])
  ++ [DrawTaperedCylinderMesh; DrawTaperedCylinderMesh;
      DrawHalfSphereMesh; DrawCylinderMesh; DrawHalfSphereMesh;
      DrawCylinderMesh; DrawTorusMesh; DrawTorusMesh; DrawCylinderMesh].

(** The mesh loads of [PrepareScene], in order. *)
Definition scene_meshes : list mesh_call :=
  [LoadPlaneMesh; LoadConeMesh; LoadCylinderMesh; LoadPrismMesh;
   LoadTorusMesh; LoadSphereMesh; LoadTaperedCylinderMesh; LoadPyramid3Mesh].

End Rendering.

(** ** Further inputs for runs *)

(** A second instance of glm that also keeps the float arithmetic of
    [RenderScene] as it is written. *)
Inductive float_term :=
| TLit (q : Q)
| TRadians (degrees : float_term)
| TOfInt (i : Z)
| TAdd (a b : float_term)
| TMul (a b : float_term).

Inductive mat4_term :=
| TScale (v : vec3 float_term)
| TRotate (angle : float_term) (axis : vec3 float_term)
| TTranslate (v : vec3 float_term)
| TMatMul (a b : mat4_term).

Definition symbolic_terms : GLM :=
  {| float := float_term;
     float_lit := TLit;
     mat4 := mat4_term;
     mat4_mul := TMatMul;
     glm_radians := TRadians;
     glm_scale := TScale;
     glm_rotate := TRotate;
     glm_translate := TTranslate |}.

Definition symbolic_arith : @FloatArith symbolic_terms :=
  {| float_of_int := TOfInt : Z -> @float symbolic_terms;
     float_add := TAdd : @float symbolic_terms -> @float symbolic_terms
                         -> @float symbolic_terms;
     float_mul := TMul : @float symbolic_terms -> @float symbolic_terms
                         -> @float symbolic_terms |}.

(** A new scene manager whose OpenGL context hands out texture names
    from 3000000000 on, above the range of [int]. *)
Definition large_names_world : @World symbolic :=
  {| this := SceneManager_new (Some []);
     gl := {| gl_next_name := 3000000000; gl_calls := [] |} |}.

(** A new scene manager constructed with a null shader manager. *)
Definition detached_world : @World symbolic :=
  {| this := SceneManager_new None;
     gl := {| gl_next_name := 1; gl_calls := [] |} |}.

(** The decoder [sample_images] with the first scene image missing. *)
Definition without_marble (filename : string) : option stb_image :=
  if String.eqb filename "textures/marble.png" then None
  else sample_images filename.

(** A new session over [symbolic_terms] with an empty shader manager. *)
Definition new_session : @Session symbolic_terms :=
  Session_new (Some []) {| gl_next_name := 1; gl_calls := [] |}.

(** Contents for the uninitialised locals of a [RenderScene]. *)
Definition stale_locals (call : Z) : @OBJECT_MATERIAL symbolic_terms :=
  let stale : @float symbolic_terms := TOfInt call in
  {| diffuseColor := mk_vec3 stale stale stale;
     specularColor := mk_vec3 stale stale stale;
     shininess := stale;
     material_tag := "" |}.

(** * Properties *)

Section Properties.

Context `{glm : GLM}.
Variable stbi_load : string -> option stb_image.

(** ** The shading stage *)

Lemma uniform_app (sh l : ShaderManager) (name : string) :
  uniform (sh ++ l) name =
  match uniform l name with
  | Some v => Some v
  | None => uniform sh name
  end.
Proof.
  induction sh as [|[m u] sh IH]; simpl.
  - destruct (uniform l name); reflexivity.
  - rewrite IH. destruct (uniform l name); reflexivity.
Qed.

Lemma uniform_push (sh : ShaderManager) (n name : string) (v : uniform_value) :
  uniform (push n v sh) name =
  if String.eqb n name then Some v else uniform sh name.
Proof.
  unfold push. rewrite uniform_app. simpl.
  destruct (String.eqb n name); reflexivity.
Qed.

(** ** The slot table *)

Lemma texture_at_Ok (index : Z) (s : SceneManager) (t : TEXTURE_INFO) :
  texture_at index s = Ok t <->
  0 <= index /\ m_textureIDs s !! Z.to_nat index = Some t.
Proof.
  unfold texture_at. destruct (Z.ltb_spec index 0).
  - split; [discriminate | lia].
  - destruct (m_textureIDs s !! Z.to_nat index) eqn:E.
    + split; [intros [= ->]; auto | intros [_ [= ->]]; reflexivity].
    + split; [discriminate | intros [_ ?]; discriminate].
Qed.

(** Only the slot table and the counter matter to the two look-ups. *)
Lemma texture_at_ext (index : Z) (s s' : SceneManager) :
  m_textureIDs s' = m_textureIDs s -> texture_at index s' = texture_at index s.
Proof. unfold texture_at. intros ->. reflexivity. Qed.

Lemma FindTextureSlot_ext (query : string) (s s' : SceneManager) :
  m_textureIDs s' = m_textureIDs s ->
  m_loadedTextures s' = m_loadedTextures s ->
  FindTextureSlot query s' = FindTextureSlot query s.
Proof.
  intros Ha Hn. unfold FindTextureSlot. rewrite Hn.
  generalize (Z.to_nat (m_loadedTextures s)) as remaining.
  generalize 0 as index.
  intros index remaining. revert index.
  induction remaining as [|k IH]; intros index; simpl; [reflexivity|].
  rewrite (texture_at_ext index s s' Ha).
  destruct (texture_at index s) as [t|why]; simpl; [|reflexivity].
  destruct (tag_is query t); [reflexivity | apply IH].
Qed.

(** What the registration at the end of a load does: it needs the slot
    [m_loadedTextures] to exist, fills it and counts it. *)
Lemma CreateGLTexture_register_run (textureID : Z) (query : string) (w : World) :
  CreateGLTexture_register textureID query w =
  match texture_at (m_loadedTextures (this w)) (this w) with
  | Ok _ =>
      Ok (true,
          {| this :=
               set_m_loadedTextures (m_loadedTextures (this w) + 1)
                 (set_m_textureIDs
                    (<[Z.to_nat (m_loadedTextures (this w)) :=
                         {| tag := query; ID := textureID |}]>
                       (m_textureIDs (this w)))
                    (this w));
             gl := {| gl_next_name := gl_next_name (gl w);
                      gl_calls :=
                        gl_calls (gl w) ++
                        [GenerateMipmap GL_TEXTURE_2D;
                         BindTexture GL_TEXTURE_2D 0] |} |})
  | Undefined why => Undefined why
  end.
Proof.
  destruct w as [[p arr n mats] [nx calls]].
  unfold CreateGLTexture_register, texture_store.
  cbv [mbind mret M_bind M_ret member update call gl_do this gl
       m_loadedTextures gl_next_name gl_calls set_m_textureIDs
       set_m_loadedTextures m_textureIDs m_pShaderManager m_objectMaterials].
  destruct (texture_at n _) as [t|why] eqn:E; [|reflexivity].
  apply texture_at_Ok in E as [Hn E]. cbn in E.
  assert (Hlt : (Z.to_nat n < length arr)%nat) by (eapply lookup_lt_Some; eauto).
  unfold texture_at at 1. cbn.
  destruct (Z.ltb_spec n 0); [lia|].
  rewrite list_lookup_insert_eq by assumption.
  rewrite list_insert_insert_eq.
  rewrite <- !app_assoc. reflexivity.
Qed.

(** A load returns [true] only by filling the slot [m_loadedTextures],
    which has to lie inside the table, and counting it; the shader
    manager and the materials stay as they are. *)
Lemma CreateGLTexture_true (filename query : string) (w w' : World) :
  CreateGLTexture stbi_load filename query w = Ok (true, w') ->
  0 <= m_loadedTextures (this w) /\
  (Z.to_nat (m_loadedTextures (this w)) < length (m_textureIDs (this w)))%nat /\
  this w' =
    set_m_loadedTextures (m_loadedTextures (this w) + 1)
      (set_m_textureIDs
         (<[Z.to_nat (m_loadedTextures (this w)) :=
              {| tag := query; ID := GLuint_of_int (gl_next_name (gl w)) |}]>
            (m_textureIDs (this w)))
         (this w)).
Proof.
  unfold CreateGLTexture.
  destruct (stbi_load filename) as [image|]; [|discriminate].
  cbv [mbind M_bind glGenTextures gl_do].
  destruct (colorChannels image =? 3);
    [|destruct (colorChannels image =? 4); [|discriminate]].
  all: rewrite CreateGLTexture_register_run; cbn [this gl gl_next_name].
  all: destruct (texture_at _ _) as [t|why] eqn:E; [|discriminate].
  all: intros [= <-]; apply texture_at_Ok in E as [Hn E].
  all: split; [assumption|]; split;
    [eapply lookup_lt_Some; eassumption | reflexivity].
Qed.

(** A load returns [false] only for an image that cannot be decoded or
    whose channel count is neither 3 nor 4. *)
Lemma CreateGLTexture_false (filename query : string) (w w' : World) :
  CreateGLTexture stbi_load filename query w = Ok (false, w') ->
  stbi_load filename = None \/
  exists image, stbi_load filename = Some image /\
                colorChannels image <> 3 /\ colorChannels image <> 4.
Proof.
  unfold CreateGLTexture.
  destruct (stbi_load filename) as [image|]; [|left; reflexivity].
  cbv [mbind M_bind glGenTextures gl_do].
  destruct (Z.eqb_spec (colorChannels image) 3);
    [|destruct (Z.eqb_spec (colorChannels image) 4)].
  1,2: rewrite CreateGLTexture_register_run;
       destruct (texture_at _ _); discriminate.
  intros _. right. exists image. auto.
Qed.

(** C8.  A load that fails, because the image cannot be decoded or its
    channel count is neither 3 nor 4, returns [false] and leaves the scene
    manager as it was: the count of populated slots and every slot's tag
    and handle are those from before the call.  (For a decoded image with
    an unsupported channel count OpenGL has by then generated and bound a
    texture name; that is outside the slot table.) *)
Theorem CreateGLTexture_failure_consumes_no_slot
    (filename query : string) (w : World) :
  stbi_load filename = None \/
  (exists image, stbi_load filename = Some image /\
                 colorChannels image <> 3 /\ colorChannels image <> 4) ->
  exists w',
    CreateGLTexture stbi_load filename query w = Ok (false, w') /\
    m_loadedTextures (this w') = m_loadedTextures (this w) /\
    m_textureIDs (this w') = m_textureIDs (this w) /\
    this w' = this w.
Proof.
  unfold CreateGLTexture.
  intros [Hnone | (image & Hsome & H3 & H4)].
  - rewrite Hnone. exists w. repeat split; reflexivity.
  - rewrite Hsome.
    apply Z.eqb_neq in H3, H4.
    cbv [mbind M_bind glGenTextures gl_do]. rewrite H3, H4.
    eexists. split; [reflexivity|]. repeat split; reflexivity.
Qed.

(** ** States reached by successful loads *)

Lemma loaded_inv (tags : list string) (w : World) :
  loaded stbi_load tags w ->
  length (m_textureIDs (this w)) = TEXTURE_CAPACITY /\
  m_loadedTextures (this w) = Z.of_nat (length tags) /\
  (length tags <= TEXTURE_CAPACITY)%nat /\
  tag <$> take (length tags) (m_textureIDs (this w)) = tags.
Proof.
  induction 1 as [p g | tags w w' filename query Hl IH Hrun].
  - repeat split; try reflexivity. unfold TEXTURE_CAPACITY. cbn. lia.
  - destruct IH as (Hlen & Hn & Hcap & Htags).
    apply CreateGLTexture_true in Hrun as (_ & Hlt & ->).
    rewrite Hn, Nat2Z.id in *.
    cbn [set_m_loadedTextures set_m_textureIDs m_textureIDs m_loadedTextures].
    rewrite length_insert, length_app. cbn [length].
    repeat split; [assumption | lia | lia |].
    replace (length tags + 1)%nat with (S (length tags)) by lia.
    destruct (lookup_lt_is_Some_2 (m_textureIDs (this w)) (length tags) Hlt)
      as [old Hold].
    erewrite take_S_r; [|apply list_lookup_insert_eq; assumption].
    rewrite take_insert_ge by lia.
    rewrite fmap_app, Htags. reflexivity.
Qed.

(** The tags of the populated slots are the tags loaded, in load order. *)
Lemma loaded_slot_tag (tags : list string) (w : World) (i : nat) :
  loaded stbi_load tags w ->
  (i < length tags)%nat ->
  tag <$> m_textureIDs (this w) !! i = tags !! i.
Proof.
  intros Hl Hi. destruct (loaded_inv tags w Hl) as (_ & _ & _ & Htags).
  transitivity ((tag <$> take (length tags) (m_textureIDs (this w))) !! i);
    [|rewrite Htags; reflexivity].
  rewrite list_lookup_fmap, lookup_take_lt by assumption. reflexivity.
Qed.

(** ** The scan of [FindTextureSlot] *)

Lemma tag_is_true (query : string) (t : TEXTURE_INFO) :
  tag_is query t = true <-> tag t = query.
Proof. unfold tag_is. apply String.eqb_eq. Qed.

Lemma tag_is_false (query : string) (t : TEXTURE_INFO) :
  tag_is query t = false <-> tag t <> query.
Proof. unfold tag_is. apply String.eqb_neq. Qed.

(** Over slots that exist the loop returns the first index from [index]
    on whose tag is the one asked for, and -1 when there is none. *)
Lemma FindTextureSlot_while_first (remaining : nat) (index : Z)
    (query : string) (s : SceneManager) :
  0 <= index ->
  (Z.to_nat index + remaining <= length (m_textureIDs s))%nat ->
  exists r,
    FindTextureSlot_while remaining index query s = Ok r /\
    ((r = -1 /\
      forall j t, index <= j < index + Z.of_nat remaining ->
                  m_textureIDs s !! Z.to_nat j = Some t -> tag t <> query) \/
     (index <= r < index + Z.of_nat remaining /\
      (exists t, m_textureIDs s !! Z.to_nat r = Some t /\ tag t = query) /\
      forall j t, index <= j < r ->
                  m_textureIDs s !! Z.to_nat j = Some t -> tag t <> query)).
Proof.
  revert index. induction remaining as [|k IH]; intros index Hi Hlen.
  - exists (-1). split; [reflexivity|]. left. split; [reflexivity|]. lia.
  - cbn [FindTextureSlot_while].
    destruct (lookup_lt_is_Some_2 (m_textureIDs s) (Z.to_nat index))
      as [t Ht]; [lia|].
    assert (Hat : texture_at index s = Ok t) by (apply texture_at_Ok; auto).
    rewrite Hat. cbn [mbind result_bind].
    destruct (tag_is query t) eqn:Htag.
    + exists index. split; [reflexivity|]. right.
      split; [lia|]. split; [|lia].
      exists t. split; [assumption | apply tag_is_true; assumption].
    + apply tag_is_false in Htag.
      destruct (IH (index + 1)) as (r & Hr & Hcases); [lia | lia |].
      exists r. split; [assumption|].
      destruct Hcases as [[-> Hnone] | (Hrange & Hhit & Hbefore)].
      * left. split; [reflexivity|]. intros j t' Hj Hjt.
        destruct (Z.eq_dec j index) as [-> | Hne].
        -- rewrite Ht in Hjt. injection Hjt as <-. assumption.
        -- apply (Hnone j t'); [lia | assumption].
      * right. split; [lia|]. split; [assumption|]. intros j t' Hj Hjt.
        destruct (Z.eq_dec j index) as [-> | Hne].
        -- rewrite Ht in Hjt. injection Hjt as <-. assumption.
        -- apply (Hbefore j t'); [lia | assumption].
Qed.

(** C5.  In a state reached from a new scene manager by loads that all
    succeeded, the populated slots carry the loaded tags in load order,
    and [FindTextureSlot] returns the smallest index whose slot has the
    tag asked for, and -1 when no populated slot has it (the empty table
    included).  Hence a tag loaded once is found at its insertion index,
    and of a tag loaded twice the lower index is returned. *)
Theorem FindTextureSlot_first_match
    (tags : list string) (w : World) (query : string) :
  loaded stbi_load tags w ->
  m_loadedTextures (this w) = Z.of_nat (length tags) /\
  (forall i, (i < length tags)%nat ->
             tag <$> m_textureIDs (this w) !! i = tags !! i) /\
  exists r,
    FindTextureSlot query (this w) = Ok r /\
    ((r = -1 /\ forall i, tags !! i <> Some query) \/
     (0 <= r /\ tags !! Z.to_nat r = Some query /\
      forall j, (j < Z.to_nat r)%nat -> tags !! j <> Some query)) /\
    (NoDup tags -> forall i, tags !! i = Some query -> r = Z.of_nat i).
Proof.
  intros Hl.
  destruct (loaded_inv tags w Hl) as (Hlen & Hn & Hcap & Htags).
  split; [assumption|]. split; [intros i; apply loaded_slot_tag; assumption|].
  destruct (FindTextureSlot_while_first (length tags) 0 query (this w))
    as (r & Hr & Hcases); [lia | rewrite Hlen; cbn; lia |].
  assert (Hmin :
    (r = -1 /\ forall i, tags !! i <> Some query) \/
    (0 <= r /\ tags !! Z.to_nat r = Some query /\
     forall j, (j < Z.to_nat r)%nat -> tags !! j <> Some query)).
  { destruct Hcases as [[-> Hnone] | (Hrange & (t & Ht & Htag) & Hbefore)].
    - left. split; [reflexivity|]. intros i Hi.
      assert (Hlt : (i < length tags)%nat) by (eapply lookup_lt_Some; eauto).
      rewrite <- (loaded_slot_tag tags w i Hl Hlt) in Hi.
      destruct (m_textureIDs (this w) !! i) as [t|] eqn:Ht; [|discriminate].
      injection Hi as Hi. apply (Hnone (Z.of_nat i) t); [lia | | assumption].
      rewrite Nat2Z.id. assumption.
    - right. split; [lia|]. split.
      + rewrite <- (loaded_slot_tag tags w (Z.to_nat r) Hl) by lia.
        rewrite Ht. cbn. congruence.
      + intros j Hj Hjq.
        rewrite <- (loaded_slot_tag tags w j Hl) in Hjq by lia.
        destruct (m_textureIDs (this w) !! j) as [t'|] eqn:Ht'; [|discriminate].
        injection Hjq as Hjq. apply (Hbefore (Z.of_nat j) t'); [lia | | assumption].
        rewrite Nat2Z.id. assumption. }
  exists r. unfold FindTextureSlot. rewrite Hn, Nat2Z.id.
  split; [assumption|]. split; [assumption|].
  intros Hnodup i Hi.
  destruct Hmin as [[_ Hnone] | (H0 & Hhit & _)].
  - destruct (Hnone i Hi).
  - rewrite <- (NoDup_lookup tags _ _ query Hnodup Hhit Hi). lia.
Qed.

(** ** [FindTextureID] against [FindTextureSlot] *)

Lemma GLuint_of_int_of_GLuint (u : Z) :
  is_GLuint u -> GLuint_of_int (int_of_GLuint u) = u.
Proof.
  unfold is_GLuint, GLuint_of_int, int_of_GLuint, GLuint_modulus.
  intros Hu. rewrite (Z.mod_small u) by lia.
  destruct (Z.ltb_spec u (2 ^ 31)).
  - apply Z.mod_small. lia.
  - replace (u - 2 ^ 32) with (u + (-1) * 2 ^ 32) by lia.
    rewrite Z_mod_plus_full. apply Z.mod_small. lia.
Qed.

Lemma int_of_GLuint_small (u : Z) :
  0 <= u < 2 ^ 31 -> int_of_GLuint u = u.
Proof.
  unfold int_of_GLuint, GLuint_modulus. intros Hu.
  rewrite Z.mod_small by lia.
  destruct (Z.ltb_spec u (2 ^ 31)); lia.
Qed.

(** The two loops run in step: they stop in the same fault, end on -1
    together, and where one returns a slot index the other returns the
    handle of that slot, converted to [int]. *)
Lemma Find_while_agree (remaining : nat) (index : Z) (query : string)
    (s : SceneManager) :
  0 <= index ->
  match FindTextureSlot_while remaining index query s with
  | Undefined why => FindTextureID_while remaining index query s = Undefined why
  | Ok r =>
      (r = -1 /\ FindTextureID_while remaining index query s = Ok (-1)) \/
      (index <= r /\
       exists t, m_textureIDs s !! Z.to_nat r = Some t /\
                 FindTextureID_while remaining index query s
                 = Ok (int_of_GLuint (ID t)))
  end.
Proof.
  revert index. induction remaining as [|k IH]; intros index Hi.
  - left. split; reflexivity.
  - cbn [FindTextureSlot_while FindTextureID_while].
    destruct (texture_at index s) as [t|why] eqn:Hat; cbn [mbind result_bind];
      [|reflexivity].
    destruct (tag_is query t).
    + right. split; [lia|]. exists t. split; [|reflexivity].
      apply texture_at_Ok in Hat. destruct Hat as [_ Hat]. exact Hat.
    + specialize (IH (index + 1) ltac:(lia)).
      destruct (FindTextureSlot_while k (index + 1) query s) as [r|why];
        [|assumption].
      destruct IH as [[-> Hid] | (Hr & t' & Ht' & Hid)].
      * left. split; [reflexivity | assumption].
      * right. split; [lia|]. exists t'. split; assumption.
Qed.

(** C10, as the code has it.  In every state of the registry the two
    look-ups agree: when [FindTextureSlot] returns -1 so does
    [FindTextureID], and when it returns an index [i >= 0] then slot [i]
    exists and [FindTextureID] returns the handle stored there converted
    to [int].  The handle is a [GLuint] and the result an [int]: the
    result converts back to the very handle, and is the same number as
    the handle only for a handle below 2^31.  The two functions also stop
    in the same fault when the counter points outside the table. *)
Theorem FindTextureID_agrees_with_FindTextureSlot
    (s : SceneManager) (query : string) :
  (FindTextureSlot query s = Ok (-1) -> FindTextureID query s = Ok (-1)) /\
  (forall i, 0 <= i -> FindTextureSlot query s = Ok i ->
     exists t, m_textureIDs s !! Z.to_nat i = Some t /\
               FindTextureID query s = Ok (int_of_GLuint (ID t)) /\
               (is_GLuint (ID t) ->
                GLuint_of_int (int_of_GLuint (ID t)) = ID t) /\
               (0 <= ID t < 2 ^ 31 -> int_of_GLuint (ID t) = ID t)) /\
  (forall why, FindTextureSlot query s = Undefined why ->
               FindTextureID query s = Undefined why).
Proof.
  unfold FindTextureSlot, FindTextureID.
  pose proof (Find_while_agree (Z.to_nat (m_loadedTextures s)) 0 query s
                ltac:(lia)) as H.
  destruct (FindTextureSlot_while _ 0 query s) as [r|why].
  - split; [|split].
    + intros [= ->]. destruct H as [[_ H] | (Hr & _)]; [assumption | lia].
    + intros i Hi [= ->]. destruct H as [[-> _] | (_ & t & Ht & Hid)]; [lia|].
      exists t. split; [assumption|]. split; [assumption|].
      split; [apply GLuint_of_int_of_GLuint | apply int_of_GLuint_small].
    + discriminate.
  - split; [discriminate|]. split; [discriminate|]. intros why' [= <-]. assumption.
Qed.

(** ** Calls on the shader manager *)

Lemma shader_run (set : ShaderManager -> ShaderManager) (w : World)
    (sh : ShaderManager) :
  m_pShaderManager (this w) = Some sh ->
  shader set w =
  Ok (tt, {| this := set_m_pShaderManager (Some (set sh)) (this w);
             gl := gl w |}).
Proof.
  intros H. unfold shader. cbv [mbind M_bind member]. rewrite H. reflexivity.
Qed.

Lemma if_shader_null (body : M unit) (w : World) :
  m_pShaderManager (this w) = None -> if_shader body w = Ok (tt, w).
Proof.
  intros H. unfold if_shader. cbv [mbind M_bind member]. rewrite H. reflexivity.
Qed.

Lemma if_shader_attached (body : M unit) (w : World) (sh : ShaderManager) :
  m_pShaderManager (this w) = Some sh -> if_shader body w = body w.
Proof.
  intros H. unfold if_shader. cbv [mbind M_bind member]. rewrite H. reflexivity.
Qed.

(** C6.  With a shader manager attached, [SetTransformations] pushes as
    the uniform ["model"] the matrix [Translate(position) *
    RotateZ(degToRad(rz)) * RotateY(degToRad(ry)) * RotateX(degToRad(rx))
    * Scale(scale)]: each rotation about its canonical unit axis, each
    angle converted from degrees to radians first.  Nothing else is
    pushed and nothing else changes. *)
Theorem SetTransformations_pushes_Compose
    (scaleXYZ : vec3 float) (rx ry rz : float) (positionXYZ : vec3 float)
    (w : World) (sh : ShaderManager) :
  m_pShaderManager (this w) = Some sh ->
  SetTransformations scaleXYZ rx ry rz positionXYZ w =
    Ok (tt,
        {| this :=
             set_m_pShaderManager
               (Some (sh ++ [(g_ModelName,
                              UMat4 (Compose scaleXYZ rx ry rz positionXYZ))]))
               (this w);
           gl := gl w |}) /\
  uniform (sh ++ [(g_ModelName, UMat4 (Compose scaleXYZ rx ry rz positionXYZ))])
    g_ModelName
  = Some (UMat4 (Compose scaleXYZ rx ry rz positionXYZ)).
Proof.
  intros H. split.
  - unfold SetTransformations. rewrite (if_shader_attached _ w sh H).
    rewrite (shader_run _ w sh H). reflexivity.
  - rewrite uniform_app. reflexivity.
Qed.

(** Without a shader manager [SetTransformations] does nothing. *)
Lemma SetTransformations_null
    (scaleXYZ : vec3 float) (rx ry rz : float) (positionXYZ : vec3 float)
    (w : World) :
  m_pShaderManager (this w) = None ->
  SetTransformations scaleXYZ rx ry rz positionXYZ w = Ok (tt, w).
Proof. intros H. unfold SetTransformations. apply if_shader_null, H. Qed.

(** What [SetShaderColor] and [SetShaderTexture] push. *)
Lemma SetShaderColor_run (r g b a : float) (w : World) (sh : ShaderManager) :
  m_pShaderManager (this w) = Some sh ->
  SetShaderColor r g b a w =
  Ok (tt,
      {| this :=
           set_m_pShaderManager
             (Some (sh ++ [(g_UseTextureName, UInt 0);
                           (g_ColorValueName, UVec4 (mk_vec4 r g b a))]))
             (this w);
         gl := gl w |}).
Proof.
  intros H. unfold SetShaderColor. rewrite (if_shader_attached _ w sh H).
  cbv [mbind M_bind]. rewrite (shader_run _ w sh H).
  erewrite shader_run by reflexivity.
  unfold setIntValue, setVec4Value, push. rewrite <- app_assoc. reflexivity.
Qed.

Lemma SetShaderTexture_run (textureTag : string) (slot : Z) (w : World)
    (sh : ShaderManager) :
  m_pShaderManager (this w) = Some sh ->
  FindTextureSlot textureTag (this w) = Ok slot ->
  SetShaderTexture textureTag w =
  Ok (tt,
      {| this :=
           set_m_pShaderManager
             (Some (sh ++ [(g_UseTextureName, UInt 1);
                           (g_TextureValueName, USampler2D slot)]))
             (this w);
         gl := gl w |}).
Proof.
  intros H Hslot. unfold SetShaderTexture. rewrite (if_shader_attached _ w sh H).
  cbv [mbind M_bind]. rewrite (shader_run _ w sh H).
  unfold call. cbn [this].
  rewrite (FindTextureSlot_ext textureTag (this w)) by reflexivity.
  rewrite Hslot. erewrite shader_run by reflexivity.
  unfold setIntValue, setSampler2DValue, push. rewrite <- app_assoc. reflexivity.
Qed.

(** After one successful load with a tag, that tag is in slot 0. *)
Lemma loaded_one_slot (query : string) (w : World) :
  loaded stbi_load [query] w -> FindTextureSlot query (this w) = Ok 0.
Proof.
  intros Hl.
  destruct (loaded_inv [query] w Hl) as (_ & Hn & _ & Htags).
  unfold FindTextureSlot. rewrite Hn.
  destruct (m_textureIDs (this w)) as [|t rest] eqn:Harr; [discriminate|].
  injection Htags as Htag.
  change (Z.to_nat (Z.of_nat (length [query]))) with 1%nat.
  cbn [FindTextureSlot_while]. unfold texture_at. rewrite Harr.
  change (Z.to_nat 0) with 0%nat. cbn.
  unfold tag_is. rewrite Htag, String.eqb_refl. reflexivity.
Qed.

(** C7.  The two appearance modes share the one uniform ["bUseTexture"].
    With a shader manager attached, [SetShaderColor] pushes it as 0
    ([false]) and leaves it bound to 0; [SetShaderTexture] pushes it as 1
    ([true]) together with the sampler index [FindTextureSlot] returns,
    and leaves both bound; and after one successful load with the tag
    ["marbleFloor"], [SetShaderTexture "marbleFloor"] leaves the flag at
    1 and the sampler at index 0. *)
Theorem SetShader_texture_toggle (w : World) (sh : ShaderManager) :
  m_pShaderManager (this w) = Some sh ->
  (forall r g b a,
     exists sh',
       SetShaderColor r g b a w =
         Ok (tt, {| this := set_m_pShaderManager (Some sh') (this w);
                    gl := gl w |}) /\
       sh' = sh ++ [(g_UseTextureName, UInt (Z.b2z false));
                    (g_ColorValueName, UVec4 (mk_vec4 r g b a))] /\
       uniform sh' g_UseTextureName = Some (UInt 0)) /\
  (forall textureTag slot,
     FindTextureSlot textureTag (this w) = Ok slot ->
     exists sh',
       SetShaderTexture textureTag w =
         Ok (tt, {| this := set_m_pShaderManager (Some sh') (this w);
                    gl := gl w |}) /\
       sh' = sh ++ [(g_UseTextureName, UInt (Z.b2z true));
                    (g_TextureValueName, USampler2D slot)] /\
       uniform sh' g_UseTextureName = Some (UInt 1) /\
       uniform sh' g_TextureValueName = Some (USampler2D slot)) /\
  (loaded stbi_load ["marbleFloor"] w ->
     exists sh',
       SetShaderTexture "marbleFloor" w =
         Ok (tt, {| this := set_m_pShaderManager (Some sh') (this w);
                    gl := gl w |}) /\
       uniform sh' g_UseTextureName = Some (UInt 1) /\
       uniform sh' g_TextureValueName = Some (USampler2D 0)).
Proof.
  intros H. split; [|split].
  - intros r g b a. eexists. split; [apply SetShaderColor_run, H|].
    split; [reflexivity|]. rewrite uniform_app. reflexivity.
  - intros textureTag slot Hslot. eexists.
    split; [apply SetShaderTexture_run; eassumption|].
    split; [reflexivity|]. split; rewrite uniform_app; reflexivity.
  - intros Hl. eexists.
    split; [apply SetShaderTexture_run; [eassumption | apply loaded_one_slot, Hl]|].
    split; rewrite uniform_app; reflexivity.
Qed.

(** ** Materials *)

(** C9.  With an empty material list [SetShaderMaterial] returns without
    a call on the shader manager: the world, and with it whatever the
    shading stage has bound as material colours and shininess, is
    exactly as before. *)
Theorem SetShaderMaterial_empty_list_pushes_nothing
    (material : OBJECT_MATERIAL) (materialTag : string) (w : World) :
  m_objectMaterials (this w) = [] ->
  SetShaderMaterial material materialTag w = Ok (tt, w).
Proof.
  intros H. unfold SetShaderMaterial. cbv [mbind M_bind member].
  rewrite H. reflexivity.
Qed.

(** ** Lights *)

Lemma pointLight_bActive_names :
  pointLight_bActive 0 = "pointLights[0].bActive" /\
  pointLight_bActive 1 = "pointLights[1].bActive" /\
  pointLight_bActive 2 = "pointLights[2].bActive" /\
  pointLight_bActive 3 = "pointLights[3].bActive".
Proof. repeat split; vm_compute; reflexivity. Qed.

(** C4, as the code has it.  With a shader manager attached, and whatever
    was pushed to it before, one call of [SetupSceneLights] leaves the
    lighting flag on, the spot light and the point lights 1, 2 and 3
    inactive, and the directional light and point light 0 active: the
    loop switches all four point lights off, and the last statement
    switches point light 0 back on. *)
Theorem SetupSceneLights_final_state (w : World) (sh : ShaderManager) :
  m_pShaderManager (this w) = Some sh ->
  exists sh',
    SetupSceneLights w =
      Ok (tt, {| this := set_m_pShaderManager (Some sh') (this w);
                 gl := gl w |}) /\
    uniform sh' g_UseLightingName = Some (UBool true) /\
    uniform sh' "spotLight.bActive" = Some (UBool false) /\
    uniform sh' (pointLight_bActive 1) = Some (UBool false) /\
    uniform sh' (pointLight_bActive 2) = Some (UBool false) /\
    uniform sh' (pointLight_bActive 3) = Some (UBool false) /\
    uniform sh' "directionalLight.bActive" = Some (UBool true) /\
    uniform sh' (pointLight_bActive 0) = Some (UBool true).
Proof.
  intros H. destruct w as [[p arr n mats] g]. cbn in H. subst p.
  destruct pointLight_bActive_names as (N0 & N1 & N2 & N3).
  eexists. split.
  - unfold SetupSceneLights.
    cbv [mbind mret M_bind M_ret shader member update for_loop this gl
         m_pShaderManager set_m_pShaderManager m_textureIDs
         m_loadedTextures m_objectMaterials].
    reflexivity.
  - change (0 + 1) with 1. change (1 + 1) with 2. change (2 + 1) with 3.
    rewrite N0, N1, N2, N3.
    unfold setBoolValue, setVec3Value, g_UseLightingName.
    repeat split; rewrite !uniform_push; vm_compute; reflexivity.
Qed.

(** ** Runs of [load_each] *)

(** A run of [load_each] in which every load returned [true] continues
    the relation [loaded] by the tags of its loads. *)
Lemma load_each_loaded (loads : list (string * string)) :
  forall (tags : list string) (w w' : World) (bs : list bool),
    loaded stbi_load tags w ->
    load_each stbi_load loads w = Ok (bs, w') ->
    forallb id bs = true ->
    loaded stbi_load (tags ++ map snd loads) w'.
Proof.
  induction loads as [|[filename query] rest IH]; intros tags w w' bs Hl Hrun Hall.
  - injection Hrun as <- <-. cbn. rewrite app_nil_r. assumption.
  - cbn [load_each] in Hrun. cbv [mbind M_bind mret M_ret] in Hrun.
    destruct (CreateGLTexture stbi_load filename query w)
      as [[b w1]|why] eqn:Hfirst; [|discriminate].
    destruct (load_each stbi_load rest w1) as [[bs' w2]|why] eqn:Hrest;
      [|discriminate].
    injection Hrun as <- <-. cbn in Hall.
    apply andb_true_iff in Hall as [Hb Hall]. unfold id in Hb. subst b.
    cbn [map snd]. rewrite (cons_middle query), app_assoc.
    eapply IH; [|eassumption|assumption].
    eapply loaded_more; eassumption.
Qed.

(** ** What the defects look like in general *)

(** The loop of [FindMaterial] computes [bFound] as one expects: it is
    [true] exactly when some material from [rest] has the tag. *)
Lemma FindMaterial_while_found (rest : list OBJECT_MATERIAL) (query : string)
    (material : OBJECT_MATERIAL) :
  fst (FindMaterial_while rest query material) = true <->
  exists m, m ∈ rest /\ material_tag m = query.
Proof.
  induction rest as [|m rest IH]; cbn [FindMaterial_while].
  - split; [discriminate | intros (m & Hm & _); inversion Hm].
  - destruct (String.eqb_spec (material_tag m) query) as [Heq | Hne]; cbn [fst].
    + split; [intros _ | reflexivity]. exists m. split; [left | assumption].
    + rewrite IH. split; intros (m' & Hm' & Htag).
      * exists m'. split; [right; assumption | assumption].
      * exists m'. split; [|assumption].
        inversion Hm' as [|? ? ? Hin]; subst; [contradiction | assumption].
Qed.

(** The function's result ignores it: with a material list that is not
    empty the result is [true], whatever the tag. *)
Lemma FindMaterial_nonempty (query : string) (material : OBJECT_MATERIAL)
    (s : SceneManager) :
  m_objectMaterials s <> [] -> fst (FindMaterial query material s) = true.
Proof.
  intros Hne. unfold FindMaterial.
  destruct (m_objectMaterials s) as [|m rest]; [contradiction|].
  cbn [length Nat.eqb].
  destruct (FindMaterial_while (m :: rest) query material). reflexivity.
Qed.

(** A load of a readable image with 3 or 4 channels into a full table is
    not refused: it stops at the store past the last slot. *)
Lemma CreateGLTexture_full_table (filename query : string) (image : stb_image)
    (w : World) :
  stbi_load filename = Some image ->
  colorChannels image = 3 \/ colorChannels image = 4 ->
  m_loadedTextures (this w) = Z.of_nat (length (m_textureIDs (this w))) ->
  CreateGLTexture stbi_load filename query w
  = Undefined (OutOfBounds (m_loadedTextures (this w))).
Proof.
  intros Himage Hch Hfull. unfold CreateGLTexture. rewrite Himage.
  cbv [mbind M_bind glGenTextures gl_do].
  assert (Hat : forall s, m_textureIDs s = m_textureIDs (this w) ->
                          m_loadedTextures s = m_loadedTextures (this w) ->
                          texture_at (m_loadedTextures s) s
                          = Undefined (OutOfBounds (m_loadedTextures (this w)))).
  { intros s Ha Hn. unfold texture_at. rewrite Hn, Ha, Hfull, Nat2Z.id.
    destruct (Z.ltb_spec (Z.of_nat (length (m_textureIDs (this w)))) 0); [lia|].
    rewrite lookup_ge_None_2 by lia. reflexivity. }
  destruct Hch as [-> | ->]; cbn [Z.eqb Pos.eqb];
    rewrite CreateGLTexture_register_run, Hat; reflexivity.
Qed.

End Properties.

(** * More of the scene manager: properties *)

Section RegistryProperties.

Context `{glm : GLM}.
Variable stbi_load : string -> option stb_image.

Lemma first_index_range (query : string) (tags : list string) (index : Z) :
  0 <= index ->
  first_index query tags index = -1 \/
  index <= first_index query tags index < index + Z.of_nat (length tags).
Proof.
  revert index. induction tags as [|t rest IH]; intros index Hi; cbn.
  - left. reflexivity.
  - destruct (String.eqb t query); [right; lia|].
    destruct (IH (index + 1)) as [-> | H]; [lia | left; reflexivity | right; lia].
Qed.

Lemma first_index_app (query : string) (l1 l2 : list string) (index : Z) :
  0 <= index ->
  first_index query (l1 ++ l2) index =
  if first_index query l1 index =? -1
  then first_index query l2 (index + Z.of_nat (length l1))
  else first_index query l1 index.
Proof.
  revert index. induction l1 as [|t rest IH]; intros index Hi; cbn [app first_index length].
  - cbn. f_equal. lia.
  - destruct (String.eqb t query).
    + destruct (Z.eqb_spec index (-1)); [lia | reflexivity].
    + rewrite IH by lia. replace (index + 1 + Z.of_nat (length rest))
        with (index + Z.of_nat (S (length rest))) by lia. reflexivity.
Qed.

(** The scan of [FindTextureSlot] over slots that exist, as a function
    of their tags. *)
Lemma FindTextureSlot_while_first_index (remaining : nat) (index : Z)
    (query : string) (s : SceneManager) :
  0 <= index ->
  (Z.to_nat index + remaining <= length (m_textureIDs s))%nat ->
  FindTextureSlot_while remaining index query s =
  Ok (first_index query
        (tag <$> take remaining (drop (Z.to_nat index) (m_textureIDs s))) index).
Proof.
  revert index. induction remaining as [|k IH]; intros index Hi Hlen.
  - reflexivity.
  - cbn [FindTextureSlot_while].
    destruct (lookup_lt_is_Some_2 (m_textureIDs s) (Z.to_nat index))
      as [t Ht]; [lia|].
    rewrite (proj2 (texture_at_Ok index s t)) by auto.
    cbn [mbind result_bind].
    rewrite (drop_S _ _ _ Ht). cbn [take fmap list_fmap first_index].
    unfold tag_is. destruct (String.eqb (tag t) query); [reflexivity|].
    rewrite IH by lia. replace (Z.to_nat (index + 1)) with (S (Z.to_nat index)) by lia.
    reflexivity.
Qed.

Lemma FindTextureID_while_first_handle (remaining : nat) (index : Z)
    (query : string) (s : SceneManager) :
  0 <= index ->
  (Z.to_nat index + remaining <= length (m_textureIDs s))%nat ->
  FindTextureID_while remaining index query s =
  Ok (first_handle query (take remaining (drop (Z.to_nat index) (m_textureIDs s)))).
Proof.
  revert index. induction remaining as [|k IH]; intros index Hi Hlen.
  - reflexivity.
  - cbn [FindTextureID_while].
    destruct (lookup_lt_is_Some_2 (m_textureIDs s) (Z.to_nat index))
      as [t Ht]; [lia|].
    rewrite (proj2 (texture_at_Ok index s t)) by auto.
    cbn [mbind result_bind].
    rewrite (drop_S _ _ _ Ht). cbn [take first_handle].
    destruct (tag_is query t); [reflexivity|].
    rewrite IH by lia. replace (Z.to_nat (index + 1)) with (S (Z.to_nat index)) by lia.
    reflexivity.
Qed.

Lemma FindTextureSlot_populated (query : string) (s : SceneManager) :
  in_bounds s ->
  FindTextureSlot query s = Ok (first_index query (tag <$> populated s) 0).
Proof.
  intros [H0 Hlen]. unfold FindTextureSlot, populated.
  rewrite FindTextureSlot_while_first_index by lia. reflexivity.
Qed.

Lemma FindTextureID_populated (query : string) (s : SceneManager) :
  in_bounds s ->
  FindTextureID query s = Ok (first_handle query (populated s)).
Proof.
  intros [H0 Hlen]. unfold FindTextureID, populated.
  rewrite FindTextureID_while_first_handle by lia. reflexivity.
Qed.

End RegistryProperties.

Section LoadProperties.

Context `{glm : GLM}.
Variable stbi_load : string -> option stb_image.

Lemma first_index_none (query : string) (tags : list string) (index : Z) :
  0 <= index ->
  first_index query tags index = -1 <-> query ∉ tags.
Proof.
  revert index. induction tags as [|t rest IH]; intros index Hi; cbn.
  - split; [intros _ H; inversion H | reflexivity].
  - destruct (String.eqb_spec t query) as [-> | Hne].
    + split; [lia | intros H; destruct H; left].
    + rewrite IH by lia. rewrite not_elem_of_cons.
      split; [intros H; split; [congruence | exact H] | intros [_ H]; exact H].
Qed.

Lemma first_index_shift (query : string) (tags : list string) (index : Z) :
  0 <= index ->
  first_index query tags index =
  if first_index query tags 0 =? -1 then -1
  else index + first_index query tags 0.
Proof.
  revert index. induction tags as [|t rest IH]; intros index Hi; cbn.
  - reflexivity.
  - destruct (String.eqb t query); [cbn; lia|].
    rewrite (IH (index + 1)), (IH (0 + 1)) by lia.
    destruct (first_index_range query rest 0 ltac:(lia)) as [-> | H];
      [reflexivity|].
    destruct (Z.eqb_spec (first_index query rest 0) (-1)); [lia|].
    destruct (Z.eqb_spec (0 + 1 + first_index query rest 0) (-1)); lia.
Qed.

Lemma first_handle_app (query : string) (l1 l2 : list TEXTURE_INFO) :
  first_handle query (l1 ++ l2) =
  if first_index query (tag <$> l1) 0 =? -1 then first_handle query l2
  else first_handle query l1.
Proof.
  induction l1 as [|t rest IH]; cbn [app first_handle fmap list_fmap first_index].
  - reflexivity.
  - unfold tag_is. destruct (String.eqb (tag t) query); [reflexivity|].
    rewrite IH, (first_index_shift query (tag <$> rest) (0 + 1)) by lia.
    destruct (Z.eqb_spec (first_index query (tag <$> rest) 0) (-1)) as [E | E];
      [reflexivity|].
    destruct (first_index_range query (tag <$> rest) 0 ltac:(lia)) as [? | H];
      [contradiction|].
    destruct (Z.eqb_spec (0 + 1 + first_index query (tag <$> rest) 0) (-1));
      [lia | reflexivity].
Qed.

(** What a load that returns has done, by its result. *)
Lemma CreateGLTexture_result (filename query : string) (w w' : World)
    (b : bool) :
  CreateGLTexture stbi_load filename query w = Ok (b, w') ->
  b = loadable stbi_load filename /\
  if b then
    0 <= m_loadedTextures (this w) /\
    (Z.to_nat (m_loadedTextures (this w)) < length (m_textureIDs (this w)))%nat /\
    this w' =
      set_m_loadedTextures (m_loadedTextures (this w) + 1)
        (set_m_textureIDs
           (<[Z.to_nat (m_loadedTextures (this w)) :=
                {| tag := query; ID := GLuint_of_int (gl_next_name (gl w)) |}]>
              (m_textureIDs (this w)))
           (this w))
  else this w' = this w.
Proof.
  intros Hrun. destruct b.
  - split; [|apply (CreateGLTexture_true stbi_load filename); assumption].
    revert Hrun. unfold CreateGLTexture, loadable.
    destruct (stbi_load filename) as [image|]; [|discriminate].
    cbv [mbind M_bind glGenTextures gl_do].
    destruct (colorChannels image =? 3); [reflexivity|].
    destruct (colorChannels image =? 4); [reflexivity | discriminate].
  - revert Hrun. unfold CreateGLTexture, loadable.
    destruct (stbi_load filename) as [image|];
      [|intros [= <-]; split; reflexivity].
    cbv [mbind M_bind glGenTextures gl_do].
    destruct (colorChannels image =? 3);
      [|destruct (colorChannels image =? 4)].
    1,2: rewrite CreateGLTexture_register_run;
         destruct (texture_at _ _); discriminate.
    intros [= <-]. split; reflexivity.
Qed.

(** When a load returns and when it does not. *)
Lemma CreateGLTexture_returns (filename query : string) (w : World) :
  loadable stbi_load filename = false \/
  (0 <= m_loadedTextures (this w) /\
   (Z.to_nat (m_loadedTextures (this w)) < length (m_textureIDs (this w)))%nat) ->
  exists b w', CreateGLTexture stbi_load filename query w = Ok (b, w').
Proof.
  unfold CreateGLTexture, loadable.
  destruct (stbi_load filename) as [image|]; [|intros _; eexists _, _; reflexivity].
  cbv [mbind M_bind glGenTextures gl_do].
  intros H.
  assert (Hat : (colorChannels image =? 3) || (colorChannels image =? 4) = true ->
                forall s, m_textureIDs s = m_textureIDs (this w) ->
                          m_loadedTextures s = m_loadedTextures (this w) ->
                          exists t, texture_at (m_loadedTextures s) s = Ok t).
  { intros Hch s Ha Hn. destruct H as [H | [H0 Hlt]]; [congruence|].
    destruct (lookup_lt_is_Some_2 _ _ Hlt) as [t Ht]. exists t.
    apply texture_at_Ok. rewrite Hn, Ha. auto. }
  destruct (colorChannels image =? 3);
    [|destruct (colorChannels image =? 4); [|eexists _, _; reflexivity]].
  all: rewrite CreateGLTexture_register_run.
  all: edestruct Hat as [t Ht]; [reflexivity | | | rewrite Ht; eexists _, _; reflexivity];
       reflexivity.
Qed.

Lemma CreateGLTexture_overrun (filename query : string) (w : World) :
  loadable stbi_load filename = true ->
  ~ (0 <= m_loadedTextures (this w) /\
     (Z.to_nat (m_loadedTextures (this w)) < length (m_textureIDs (this w)))%nat) ->
  CreateGLTexture stbi_load filename query w
  = Undefined (OutOfBounds (m_loadedTextures (this w))).
Proof.
  unfold CreateGLTexture, loadable.
  destruct (stbi_load filename) as [image|]; [|discriminate].
  cbv [mbind M_bind glGenTextures gl_do]. intros Hch Hout.
  assert (Hat : forall s, m_textureIDs s = m_textureIDs (this w) ->
                          m_loadedTextures s = m_loadedTextures (this w) ->
                          texture_at (m_loadedTextures s) s
                          = Undefined (OutOfBounds (m_loadedTextures (this w)))).
  { intros s Ha Hn. unfold texture_at. rewrite Hn, Ha.
    destruct (Z.ltb_spec (m_loadedTextures (this w)) 0); [reflexivity|].
    rewrite lookup_ge_None_2 by lia. reflexivity. }
  destruct (colorChannels image =? 3);
    [|destruct (colorChannels image =? 4); [|discriminate]].
  all: rewrite CreateGLTexture_register_run, Hat; reflexivity.
Qed.

Lemma populated_after_load (s : SceneManager) (t : TEXTURE_INFO) :
  0 <= m_loadedTextures s ->
  (Z.to_nat (m_loadedTextures s) < length (m_textureIDs s))%nat ->
  populated
    (set_m_loadedTextures (m_loadedTextures s + 1)
       (set_m_textureIDs (<[Z.to_nat (m_loadedTextures s) := t]> (m_textureIDs s)) s))
  = populated s ++ [t].
Proof.
  intros H0 Hlt. unfold populated.
  cbn [set_m_loadedTextures set_m_textureIDs m_loadedTextures m_textureIDs].
  replace (Z.to_nat (m_loadedTextures s + 1))
    with (S (Z.to_nat (m_loadedTextures s))) by lia.
  erewrite take_S_r; [|apply list_lookup_insert_eq; assumption].
  rewrite take_insert_ge by lia. reflexivity.
Qed.

Lemma length_populated (s : SceneManager) :
  in_bounds s -> Z.of_nat (length (populated s)) = m_loadedTextures s.
Proof. intros [H0 Hlen]. unfold populated. rewrite length_take. lia. Qed.

End LoadProperties.

Section LoadTheorems.

Context `{glm : GLM}.
Variable stbi_load : string -> option stb_image.

(** X1.  A load of an image with 3 or 4 channels into a table with a
    free slot returns [true]: the slot the counter points at receives the
    tag and the name OpenGL generated, the counter moves on by one, every
    other slot, the shader manager and the materials stay as they are. *)
Theorem CreateGLTexture_appends_slot (filename query : string) (w : World) :
  loadable stbi_load filename = true ->
  0 <= m_loadedTextures (this w) ->
  (Z.to_nat (m_loadedTextures (this w)) < length (m_textureIDs (this w)))%nat ->
  exists w',
    CreateGLTexture stbi_load filename query w = Ok (true, w') /\
    m_loadedTextures (this w') = m_loadedTextures (this w) + 1 /\
    m_textureIDs (this w') !! Z.to_nat (m_loadedTextures (this w))
    = Some {| tag := query; ID := GLuint_of_int (gl_next_name (gl w)) |} /\
    (forall i, i <> Z.to_nat (m_loadedTextures (this w)) ->
               m_textureIDs (this w') !! i = m_textureIDs (this w) !! i) /\
    populated (this w')
    = populated (this w)
      ++ [{| tag := query; ID := GLuint_of_int (gl_next_name (gl w)) |}] /\
    m_pShaderManager (this w') = m_pShaderManager (this w) /\
    m_objectMaterials (this w') = m_objectMaterials (this w).
Proof.
  intros Hload H0 Hlt.
  destruct (CreateGLTexture_returns stbi_load filename query w)
    as (b & w' & Hrun); [right; auto|].
  destruct (CreateGLTexture_result stbi_load filename query w w' b Hrun)
    as [Hb Hthis].
  rewrite Hload in Hb. subst b. destruct Hthis as (_ & _ & Hthis).
  exists w'. split; [assumption|]. rewrite Hthis.
  cbn [set_m_loadedTextures set_m_textureIDs m_loadedTextures m_textureIDs
       m_pShaderManager m_objectMaterials].
  split; [reflexivity|].
  split; [apply list_lookup_insert_eq; assumption|].
  split; [intros i Hi; apply list_lookup_insert_ne; congruence|].
  split; [apply populated_after_load; assumption|].
  split; reflexivity.
Qed.

(** After a load that returned [true], both tables are within bounds and
    the populated slots are the old ones followed by the new one. *)
Lemma CreateGLTexture_true_populated (filename query : string) (w w' : World) :
  CreateGLTexture stbi_load filename query w = Ok (true, w') ->
  in_bounds (this w) /\ in_bounds (this w') /\
  populated (this w')
  = populated (this w)
    ++ [{| tag := query; ID := GLuint_of_int (gl_next_name (gl w)) |}].
Proof.
  intros Hrun.
  apply CreateGLTexture_true in Hrun as (H0 & Hlt & ->).
  split; [unfold in_bounds; lia|]. split.
  - unfold in_bounds.
    cbn [set_m_loadedTextures set_m_textureIDs m_loadedTextures m_textureIDs].
    rewrite length_insert. lia.
  - apply populated_after_load; assumption.
Qed.

(** X2.  A load that returned [true] changes the answer of neither
    look-up for any tag that was found before, nor for any tag other than
    the one loaded: slots are appended, never reused or overwritten. *)
Theorem CreateGLTexture_keeps_lookups (filename query : string) (w w' : World)
    (other : string) :
  CreateGLTexture stbi_load filename query w = Ok (true, w') ->
  other <> query \/ FindTextureSlot other (this w) <> Ok (-1) ->
  FindTextureSlot other (this w') = FindTextureSlot other (this w) /\
  FindTextureID other (this w') = FindTextureID other (this w).
Proof.
  intros Hrun Hother.
  destruct (CreateGLTexture_true_populated filename query w w' Hrun)
    as (Hb & Hb' & Hpop).
  rewrite !FindTextureSlot_populated, !FindTextureID_populated in * by assumption.
  rewrite Hpop, fmap_app, first_index_app, first_handle_app by lia.
  cbn [fmap list_fmap first_index first_handle tag ID].
  destruct (Z.eqb_spec (first_index other (tag <$> populated (this w)) 0) (-1))
    as [Hnone | Hsome]; [|split; reflexivity].
  destruct Hother as [Hne | Hfound]; [|rewrite Hnone in Hfound; contradiction].
  unfold tag_is. cbn [tag].
  destruct (String.eqb_spec query other) as [-> | _]; [contradiction|].
  rewrite Hnone.
  assert (Hnotin : other ∉ tag <$> populated (this w))
    by (apply (first_index_none other _ 0); [lia | assumption]).
  split; [reflexivity|]. f_equal. symmetry.
  clear -Hnotin. induction (populated (this w)) as [|t rest IH]; [reflexivity|].
  cbn in *. apply not_elem_of_cons in Hnotin as [Hne Hrest].
  unfold tag_is. destruct (String.eqb_spec (tag t) other); [congruence|].
  apply IH, Hrest.
Qed.

(** X3.  A tag that no populated slot had is found, after a load with
    that tag returned [true], in the slot the counter pointed at, with the
    name OpenGL generated for it as its handle. *)
Theorem CreateGLTexture_then_lookup (filename query : string) (w w' : World) :
  CreateGLTexture stbi_load filename query w = Ok (true, w') ->
  FindTextureSlot query (this w) = Ok (-1) ->
  FindTextureSlot query (this w') = Ok (m_loadedTextures (this w)) /\
  FindTextureID query (this w')
  = Ok (int_of_GLuint (GLuint_of_int (gl_next_name (gl w)))).
Proof.
  intros Hrun Hnone.
  destruct (CreateGLTexture_true_populated filename query w w' Hrun)
    as (Hb & Hb' & Hpop).
  rewrite !FindTextureSlot_populated, !FindTextureID_populated in * by assumption.
  injection Hnone as Hnone.
  rewrite Hpop, fmap_app, first_index_app, first_handle_app, Hnone by lia.
  cbn [fmap list_fmap first_index first_handle tag ID Z.eqb].
  unfold tag_is. cbn [tag]. rewrite String.eqb_refl.
  rewrite length_fmap, (length_populated (this w) Hb).
  split; [f_equal; lia | reflexivity].
Qed.

(** X4.  A run of loads that returns, from a table within bounds: each
    load returned [true] exactly when its image decodes into 3 or 4
    channels (results are independent of the table), the tags of the
    populated slots are the earlier ones followed by those of the loads
    that succeeded, in call order, and the table is still within bounds;
    the shader manager and the materials are untouched. *)
Theorem load_each_appends (loads : list (string * string)) :
  forall (w w' : World) (bs : list bool),
    in_bounds (this w) ->
    load_each stbi_load loads w = Ok (bs, w') ->
    bs = map (fun l => loadable stbi_load (fst l)) loads /\
    tag <$> populated (this w')
    = (tag <$> populated (this w))
      ++ map snd (List.filter (fun l => loadable stbi_load (fst l)) loads) /\
    in_bounds (this w') /\
    length (m_textureIDs (this w')) = length (m_textureIDs (this w)) /\
    m_pShaderManager (this w') = m_pShaderManager (this w) /\
    m_objectMaterials (this w') = m_objectMaterials (this w).
Proof.
  induction loads as [|[filename query] rest IH]; intros w w' bs Hb Hrun.
  - injection Hrun as <- <-. cbn. rewrite app_nil_r.
    split; [reflexivity|]. split; [reflexivity|]. split; [assumption|].
    repeat split.
  - cbn [load_each] in Hrun. cbv [mbind M_bind mret M_ret] in Hrun.
    destruct (CreateGLTexture stbi_load filename query w)
      as [[b w1]|why] eqn:Hfirst; [|discriminate].
    destruct (load_each stbi_load rest w1) as [[bs' w2]|why] eqn:Hrest;
      [|discriminate].
    injection Hrun as <- <-.
    destruct (CreateGLTexture_result stbi_load filename query w w1 b Hfirst)
      as [Hres Hthis].
    cbn [map List.filter fst]. rewrite <- Hres.
    destruct b.
    + destruct (CreateGLTexture_true_populated filename query w w1 Hfirst)
        as (_ & Hb1 & Hpop).
      destruct (IH w1 w2 bs' Hb1 Hrest) as (-> & Htags & Hb2 & Hlen & Hsh & Hmat).
      destruct Hthis as (_ & _ & Hthis).
      split; [reflexivity|]. split.
      * rewrite Htags, Hpop, fmap_app. cbn [fmap list_fmap tag map snd].
        rewrite <- app_assoc. reflexivity.
      * split; [assumption|]. rewrite Hlen, Hsh, Hmat, Hthis.
        cbn [set_m_loadedTextures set_m_textureIDs m_textureIDs
             m_pShaderManager m_objectMaterials].
        rewrite length_insert. repeat split.
    + assert (Hb1 : in_bounds (this w1)) by (rewrite Hthis; assumption).
      destruct (IH w1 w2 bs' Hb1 Hrest) as (-> & Htags & Hb2 & Hlen & Hsh & Hmat).
      rewrite Hthis in *. auto 10.
Qed.

(** X5.  A run of loads from a table within bounds returns exactly when
    the loads that decode fit into the free slots; one more, and the run
    ends in the store past the last slot of the table. *)
Theorem load_each_capacity (loads : list (string * string)) :
  forall w : World,
    in_bounds (this w) ->
    let decoding :=
      Z.of_nat (length (List.filter (fun l => loadable stbi_load (fst l)) loads)) in
    let capacity := Z.of_nat (length (m_textureIDs (this w))) in
    (m_loadedTextures (this w) + decoding <= capacity ->
     exists bs w', load_each stbi_load loads w = Ok (bs, w')) /\
    (capacity < m_loadedTextures (this w) + decoding ->
     load_each stbi_load loads w = Undefined (OutOfBounds capacity)).
Proof.
  induction loads as [|[filename query] rest IH]; intros w Hb; cbn zeta.
  - split; [intros _; eexists _, _; reflexivity|].
    cbn [List.filter length]. destruct Hb. lia.
  - cbn [List.filter fst load_each]. cbv [mbind M_bind mret M_ret].
    destruct (loadable stbi_load filename) eqn:Hload.
    + cbn [length].
      destruct (Z.eq_dec (m_loadedTextures (this w))
                  (Z.of_nat (length (m_textureIDs (this w))))) as [Hfull | Hroom].
      * split; [destruct Hb; lia|]. intros _.
        rewrite CreateGLTexture_overrun by (assumption || lia).
        rewrite Hfull. reflexivity.
      * destruct Hb as [H0 Hlen].
        destruct (CreateGLTexture_returns stbi_load filename query w)
          as (b & w1 & Hrun); [right; lia|].
        destruct (CreateGLTexture_result stbi_load filename query w w1 b Hrun)
          as [Hres _].
        rewrite Hload in Hres. subst b. rewrite Hrun.
        destruct (CreateGLTexture_true_populated filename query w w1 Hrun)
          as (_ & Hb1 & _).
        assert (Hn : m_loadedTextures (this w1) = m_loadedTextures (this w) + 1
                     /\ length (m_textureIDs (this w1))
                        = length (m_textureIDs (this w))).
        { apply CreateGLTexture_true in Hrun as (_ & _ & ->).
          cbn [set_m_loadedTextures set_m_textureIDs m_textureIDs m_loadedTextures].
          rewrite length_insert. split; reflexivity. }
        destruct Hn as [Hn Hlen1].
        destruct (IH w1 Hb1) as [Hfit Hover]. rewrite Hn, Hlen1 in *.
        split; intros H.
        -- destruct Hfit as (bs & w2 & ->); [lia|]. eexists _, _. reflexivity.
        -- rewrite Hover by lia. reflexivity.
    + destruct (CreateGLTexture_returns stbi_load filename query w)
        as (b & w1 & Hrun); [left; assumption|].
      destruct (CreateGLTexture_result stbi_load filename query w w1 b Hrun)
        as [Hres Hthis].
      rewrite Hload in Hres. subst b. rewrite Hrun.
      assert (Hb1 : in_bounds (this w1)) by (rewrite Hthis; assumption).
      destruct (IH w1 Hb1) as [Hfit Hover]. rewrite Hthis in *.
      split; intros H.
      * destruct Hfit as (bs & w2 & ->); [lia|]. eexists _, _. reflexivity.
      * rewrite Hover by lia. reflexivity.
Qed.

End LoadTheorems.

Section LoadCalls.

Context `{glm : GLM}.
Variable stbi_load : string -> option stb_image.

(** X6.  The OpenGL calls of a load of a decoded image into a table
    with a free slot.  A name is generated, bound and given its wrap and
    filter parameters whatever the channel count is.  With 3 channels the
    pixels are uploaded as [GL_RGB8]/[GL_RGB], with 4 as
    [GL_RGBA8]/[GL_RGBA], followed by the mipmaps and the unbinding of the
    texture.  With any other count the load returns [false] right after
    the parameters: nothing is uploaded, and the generated name stays
    bound and is stored in no slot. *)
Theorem CreateGLTexture_calls_by_channels (filename query : string)
    (image : stb_image) (w : World) :
  stbi_load filename = Some image ->
  0 <= m_loadedTextures (this w) ->
  (Z.to_nat (m_loadedTextures (this w)) < length (m_textureIDs (this w)))%nat ->
  let name := GLuint_of_int (gl_next_name (gl w)) in
  let upload internalformat format :=
    TexImage2D GL_TEXTURE_2D 0 internalformat (width image) (height image) 0
      format GL_UNSIGNED_BYTE (pixels image) in
  exists w',
    CreateGLTexture stbi_load filename query w
    = Ok ((colorChannels image =? 3) || (colorChannels image =? 4), w') /\
    gl_next_name (gl w') = gl_next_name (gl w) + 1 /\
    gl_calls (gl w')
    = gl_calls (gl w)
      ++ [GenTextures name;
          BindTexture GL_TEXTURE_2D name;
          TexParameteri GL_TEXTURE_2D GL_TEXTURE_WRAP_S GL_REPEAT;
          TexParameteri GL_TEXTURE_2D GL_TEXTURE_WRAP_T GL_REPEAT;
          TexParameteri GL_TEXTURE_2D GL_TEXTURE_MIN_FILTER GL_LINEAR;
          TexParameteri GL_TEXTURE_2D GL_TEXTURE_MAG_FILTER GL_LINEAR]
      ++ (if colorChannels image =? 3 then
            [upload GL_RGB8 GL_RGB; GenerateMipmap GL_TEXTURE_2D;
             BindTexture GL_TEXTURE_2D 0]
          else if colorChannels image =? 4 then
            [upload GL_RGBA8 GL_RGBA; GenerateMipmap GL_TEXTURE_2D;
             BindTexture GL_TEXTURE_2D 0]
          else []).
Proof.
  intros Himage H0 Hlt name upload. subst name upload.
  unfold CreateGLTexture. rewrite Himage.
  cbv [mbind M_bind glGenTextures gl_do].
  destruct (lookup_lt_is_Some_2 _ _ Hlt) as [t Ht].
  assert (Hat : forall s, m_textureIDs s = m_textureIDs (this w) ->
                          m_loadedTextures s = m_loadedTextures (this w) ->
                          texture_at (m_loadedTextures s) s = Ok t).
  { intros s Ha Hn. apply texture_at_Ok. rewrite Hn, Ha. auto. }
  destruct (colorChannels image =? 3);
    [|destruct (colorChannels image =? 4)].
  1,2: rewrite CreateGLTexture_register_run, Hat by reflexivity;
       eexists; split; [reflexivity|]; cbn [gl gl_next_name gl_calls orb];
       split; [reflexivity|]; rewrite <- !app_assoc; reflexivity.
  eexists. split; [reflexivity|]. cbn [gl gl_next_name gl_calls].
  split; [reflexivity|]. rewrite <- !app_assoc. reflexivity.
Qed.

End LoadCalls.

Section TableProperties.

Context `{glm : GLM}.

Lemma unit_bindings_lookup (slots : list TEXTURE_INFO) (i : Z) (k : nat)
    (t : TEXTURE_INFO) :
  slots !! k = Some t ->
  unit_bindings slots i !! (2 * k)%nat = Some (ActiveTexture (i + Z.of_nat k)) /\
  unit_bindings slots i !! (2 * k + 1)%nat
  = Some (BindTexture GL_TEXTURE_2D (ID t)).
Proof.
  revert i k. induction slots as [|t0 rest IH]; intros i k Hk; [discriminate|].
  destruct k as [|k]; cbn [unit_bindings].
  - injection Hk as ->. cbn. rewrite Z.add_0_r. split; reflexivity.
  - cbn in Hk. destruct (IH (i + 1) k Hk) as [Ha Hb].
    replace (2 * S k)%nat with (S (S (2 * k))) by lia.
    replace (i + Z.of_nat (S k)) with (i + 1 + Z.of_nat k) by lia.
    split; assumption.
Qed.

Lemma length_unit_bindings (slots : list TEXTURE_INFO) (i : Z) :
  length (unit_bindings slots i) = (2 * length slots)%nat.
Proof.
  revert i. induction slots as [|t rest IH]; intros i; cbn; [reflexivity|].
  rewrite IH. lia.
Qed.

Lemma BindGLTextures_loop (count : nat) :
  forall (i : Z) (w : World),
    0 <= i ->
    (Z.to_nat i + count <= length (m_textureIDs (this w)))%nat ->
    for_loop count i
      (fun i => gl_do (ActiveTexture i);;
                t ← call (texture_at i);
                gl_do (BindTexture GL_TEXTURE_2D (ID t))) w
    = Ok (tt,
          {| this := this w;
             gl := {| gl_next_name := gl_next_name (gl w);
                      gl_calls :=
                        gl_calls (gl w)
                        ++ unit_bindings
                             (take count (drop (Z.to_nat i) (m_textureIDs (this w))))
                             i |} |}).
Proof.
  induction count as [|k IH]; intros i w Hi Hlen.
  - destruct w as [s [next calls]]. cbn. rewrite app_nil_r. reflexivity.
  - cbn [for_loop].
    destruct (lookup_lt_is_Some_2 (m_textureIDs (this w)) (Z.to_nat i))
      as [t Ht]; [lia|].
    cbv [mbind M_bind gl_do call]. cbn [this gl gl_next_name gl_calls].
    rewrite (proj2 (texture_at_Ok i (this w) t)) by auto.
    rewrite IH by (cbn [this]; lia).
    cbn [this gl gl_next_name gl_calls].
    rewrite (drop_S _ _ _ Ht). cbn [take unit_bindings].
    replace (Z.to_nat (i + 1)) with (S (Z.to_nat i)) by lia.
    rewrite <- !app_assoc. reflexivity.
Qed.

Lemma BindGLTextures_run (w : World) :
  in_bounds (this w) ->
  BindGLTextures w
  = Ok (tt, {| this := this w;
               gl := {| gl_next_name := gl_next_name (gl w);
                        gl_calls :=
                          gl_calls (gl w)
                          ++ unit_bindings (populated (this w)) 0 |} |}).
Proof.
  intros [H0 Hlen]. unfold BindGLTextures. cbv [mbind M_bind member].
  rewrite BindGLTextures_loop by lia. reflexivity.
Qed.

(** X7.  On a table within bounds [BindGLTextures] returns, changes
    nothing of the scene manager and generates no name: it issues, for
    the populated slots in slot order, the activation of the texture unit
    with the slot's index followed by the binding of the slot's handle,
    two calls per slot and nothing else (none for an empty table). *)
Theorem BindGLTextures_binds_slot_to_unit (w : World) :
  in_bounds (this w) ->
  exists bindings,
    BindGLTextures w
    = Ok (tt, {| this := this w;
                 gl := {| gl_next_name := gl_next_name (gl w);
                          gl_calls := gl_calls (gl w) ++ bindings |} |}) /\
    length bindings = (2 * Z.to_nat (m_loadedTextures (this w)))%nat /\
    forall (k : nat) (t : TEXTURE_INFO),
      (k < Z.to_nat (m_loadedTextures (this w)))%nat ->
      m_textureIDs (this w) !! k = Some t ->
      bindings !! (2 * k)%nat = Some (ActiveTexture (Z.of_nat k)) /\
      bindings !! (2 * k + 1)%nat = Some (BindTexture GL_TEXTURE_2D (ID t)).
Proof.
  intros Hb. pose proof Hb as [H0 Hlen].
  exists (unit_bindings (populated (this w)) 0). split; [|split].
  - apply BindGLTextures_run, Hb.
  - rewrite length_unit_bindings. unfold populated. rewrite length_take. lia.
  - intros k t Hk Ht.
    apply (unit_bindings_lookup (populated (this w)) 0 k t).
    unfold populated. rewrite lookup_take_lt by assumption. exact Ht.
Qed.

Lemma renamed_tags (slots : list TEXTURE_INFO) (next : Z) :
  tag <$> renamed slots next = tag <$> slots.
Proof.
  revert next. induction slots as [|t rest IH]; intros next; cbn; [reflexivity|].
  rewrite IH. reflexivity.
Qed.

Lemma renamed_IDs (slots : list TEXTURE_INFO) (next : Z) :
  ID <$> renamed slots next = generated_names (length slots) next.
Proof.
  revert next. induction slots as [|t rest IH]; intros next; cbn; [reflexivity|].
  rewrite IH. reflexivity.
Qed.

Lemma length_renamed (slots : list TEXTURE_INFO) (next : Z) :
  length (renamed slots next) = length slots.
Proof.
  revert next. induction slots as [|t rest IH]; intros next; cbn; [reflexivity|].
  rewrite IH. reflexivity.
Qed.

Lemma DestroyGLTextures_loop (count : nat) :
  forall (i : Z) (w : World),
    0 <= i ->
    (Z.to_nat i + count <= length (m_textureIDs (this w)))%nat ->
    for_loop count i
      (fun i => name ← glGenTextures; texture_store i (set_ID name)) w
    = Ok (tt,
          {| this :=
               set_m_textureIDs
                 (take (Z.to_nat i) (m_textureIDs (this w))
                  ++ renamed (take count (drop (Z.to_nat i) (m_textureIDs (this w))))
                       (gl_next_name (gl w))
                  ++ drop (Z.to_nat i + count) (m_textureIDs (this w)))
                 (this w);
             gl := {| gl_next_name := gl_next_name (gl w) + Z.of_nat count;
                      gl_calls :=
                        gl_calls (gl w)
                        ++ (GenTextures
                              <$> generated_names count (gl_next_name (gl w))) |} |}).
Proof.
  induction count as [|k IH]; intros i w Hi Hlen.
  - destruct w as [[p arr n mats] [next calls]].
    cbn [for_loop this gl m_textureIDs gl_next_name gl_calls take renamed
         generated_names fmap list_fmap].
    rewrite Nat.add_0_r.
    change (take 0 (drop (Z.to_nat i) arr)) with (@nil TEXTURE_INFO).
    cbn [renamed app].
    rewrite take_drop, Z.add_0_r, app_nil_r. reflexivity.
  - destruct w as [[p arr n mats] [next calls]].
    cbn [this gl m_textureIDs gl_next_name gl_calls] in *.
    destruct (lookup_lt_is_Some_2 arr (Z.to_nat i)) as [t Ht]; [lia|].
    cbn [for_loop]. unfold texture_store.
    cbv [mbind M_bind glGenTextures call update].
    cbn [this gl gl_next_name gl_calls].
    rewrite (proj2 (texture_at_Ok i _ t)) by (cbn; auto).
    rewrite IH by (cbn; rewrite ?length_insert; lia).
    cbn [this gl gl_next_name gl_calls set_m_textureIDs m_textureIDs
         m_pShaderManager m_loadedTextures m_objectMaterials].
    replace (Z.to_nat (i + 1)) with (S (Z.to_nat i)) by lia.
    assert (Hlt : (Z.to_nat i < length arr)%nat) by (eapply lookup_lt_Some; eauto).
    erewrite take_S_r by (apply list_lookup_insert_eq; assumption).
    rewrite take_insert_ge by lia.
    rewrite !drop_insert_lt by lia.
    rewrite (drop_S arr t (Z.to_nat i) Ht).
    cbn [take renamed generated_names fmap list_fmap].
    replace (S (Z.to_nat i) + k)%nat with (Z.to_nat i + S k)%nat by lia.
    replace (next + 1 + Z.of_nat k) with (next + Z.of_nat (S k)) by lia.
    rewrite <- !app_assoc. reflexivity.
Qed.

(** X8.  On a table within bounds [DestroyGLTextures] returns; it
    issues one [glGenTextures] per populated slot and no other OpenGL
    call, stores the generated names as the handles of the populated
    slots, and leaves the counter, every tag, the slots past the counter,
    the shader manager and the materials as they were; [FindTextureSlot]
    answers every query as before. *)
Theorem DestroyGLTextures_keeps_registry (w : World) :
  in_bounds (this w) ->
  exists w',
    DestroyGLTextures w = Ok (tt, w') /\
    m_loadedTextures (this w') = m_loadedTextures (this w) /\
    tag <$> m_textureIDs (this w') = tag <$> m_textureIDs (this w) /\
    ID <$> populated (this w')
    = generated_names (Z.to_nat (m_loadedTextures (this w))) (gl_next_name (gl w)) /\
    drop (Z.to_nat (m_loadedTextures (this w))) (m_textureIDs (this w'))
    = drop (Z.to_nat (m_loadedTextures (this w))) (m_textureIDs (this w)) /\
    gl_calls (gl w')
    = gl_calls (gl w)
      ++ (GenTextures
            <$> generated_names (Z.to_nat (m_loadedTextures (this w)))
                  (gl_next_name (gl w))) /\
    (forall query,
        FindTextureSlot query (this w') = FindTextureSlot query (this w)) /\
    m_pShaderManager (this w') = m_pShaderManager (this w) /\
    m_objectMaterials (this w') = m_objectMaterials (this w).
Proof.
  intros Hb. pose proof Hb as [H0 Hlen].
  eexists. split.
  - unfold DestroyGLTextures. cbv [mbind M_bind member].
    rewrite DestroyGLTextures_loop by lia. reflexivity.
  - cbn [this gl gl_calls set_m_textureIDs m_textureIDs m_loadedTextures
         m_pShaderManager m_objectMaterials take app].
    change (Z.to_nat 0) with 0%nat. rewrite take_0, drop_0. cbn [app Nat.add].
    fold (populated (this w)).
    assert (Hpl : length (populated (this w)) = Z.to_nat (m_loadedTextures (this w)))
      by (unfold populated; rewrite length_take; lia).
    assert (Htags : tag <$> renamed (populated (this w)) (gl_next_name (gl w))
                            ++ drop (Z.to_nat (m_loadedTextures (this w)))
                                 (m_textureIDs (this w))
                    = tag <$> m_textureIDs (this w)).
    { rewrite fmap_app, renamed_tags, <- fmap_app. unfold populated.
      rewrite take_drop. reflexivity. }
    assert (Hpop : take (Z.to_nat (m_loadedTextures (this w)))
                     (renamed (populated (this w)) (gl_next_name (gl w))
                      ++ drop (Z.to_nat (m_loadedTextures (this w)))
                           (m_textureIDs (this w)))
                   = renamed (populated (this w)) (gl_next_name (gl w))).
    { rewrite take_app_length'; [reflexivity|]. rewrite length_renamed. symmetry. exact Hpl. }
    split; [reflexivity|]. split; [exact Htags|].
    split; [unfold populated at 1;
            cbn [set_m_textureIDs m_loadedTextures m_textureIDs];
            rewrite Hpop, renamed_IDs, Hpl; reflexivity|].
    split; [rewrite drop_app_length'; [reflexivity|];
            rewrite length_renamed; symmetry; exact Hpl|].
    split; [reflexivity|].
    split; [|split; reflexivity].
    intros query.
    rewrite (FindTextureSlot_populated query (this w)) by assumption.
    rewrite FindTextureSlot_populated.
    + unfold populated at 1. cbn [set_m_textureIDs m_loadedTextures m_textureIDs].
      rewrite Hpop, renamed_tags. reflexivity.
    + unfold in_bounds. cbn [set_m_textureIDs m_loadedTextures m_textureIDs].
      rewrite length_app, length_renamed, length_drop, Hpl. lia.
Qed.

(** The scan of [FindTextureSlot] in any state: an index it returns lies
    between [index] and the end of the scanned range and holds the tag. *)
Lemma FindTextureSlot_while_range (remaining : nat) (index : Z)
    (query : string) (s : SceneManager) (r : Z) :
  0 <= index ->
  FindTextureSlot_while remaining index query s = Ok r ->
  r = -1 \/
  (index <= r < index + Z.of_nat remaining /\
   tag <$> m_textureIDs s !! Z.to_nat r = Some query).
Proof.
  revert index. induction remaining as [|k IH]; intros index Hi.
  - intros [= <-]. left. reflexivity.
  - cbn [FindTextureSlot_while].
    destruct (texture_at index s) as [t|why] eqn:Hat; cbn [mbind result_bind];
      [|discriminate].
    apply texture_at_Ok in Hat as [_ Hat].
    destruct (tag_is query t) eqn:Htag.
    + intros [= <-]. right. split; [lia|]. rewrite Hat. cbn. f_equal.
      apply tag_is_true. assumption.
    + intros Hr. destruct (IH (index + 1) ltac:(lia) Hr) as [-> | [Hrange Hq]];
        [left; reflexivity | right; split; [lia | assumption]].
Qed.

(** X9.  In every state, whatever the counter and the table are, an
    answer of [FindTextureSlot] is either -1 or the index of a slot
    below the counter that exists and carries the tag asked for; and on a
    table within bounds the function always answers. *)
Theorem FindTextureSlot_answer (query : string) (s : SceneManager) :
  (forall r, FindTextureSlot query s = Ok r ->
     r = -1 \/
     (0 <= r < m_loadedTextures s /\
      tag <$> m_textureIDs s !! Z.to_nat r = Some query)) /\
  (in_bounds s -> exists r, FindTextureSlot query s = Ok r).
Proof.
  split.
  - intros r Hr. unfold FindTextureSlot in Hr.
    destruct (FindTextureSlot_while_range _ 0 query s r ltac:(lia) Hr)
      as [-> | [Hrange Hq]]; [left; reflexivity|].
    right. split; [lia | assumption].
  - intros Hb. eexists. apply FindTextureSlot_populated, Hb.
Qed.

End TableProperties.

Section MaterialProperties.

Context `{glm : GLM}.


Lemma FindMaterial_while_app (l1 l2 : list OBJECT_MATERIAL) (query : string)
    (material : OBJECT_MATERIAL) :
  FindMaterial_while (l1 ++ l2) query material =
  if fst (FindMaterial_while l1 query material)
  then FindMaterial_while l1 query material
  else FindMaterial_while l2 query material.
Proof.
  induction l1 as [|m rest IH]; cbn [app FindMaterial_while fst].
  - reflexivity.
  - destruct (String.eqb (material_tag m) query); [reflexivity | exact IH].
Qed.

Lemma FindMaterial_while_miss (l : list OBJECT_MATERIAL) (query : string)
    (material : OBJECT_MATERIAL) :
  (forall m, m ∈ l -> material_tag m <> query) ->
  FindMaterial_while l query material = (false, material).
Proof.
  induction l as [|m rest IH]; intros Hmiss; cbn [FindMaterial_while].
  - reflexivity.
  - destruct (String.eqb_spec (material_tag m) query) as [Heq | _].
    + destruct (Hmiss m); [left | assumption].
    + apply IH. intros m' Hm'. apply Hmiss. right. assumption.
Qed.

Lemma FindMaterial_while_hit (before after : list OBJECT_MATERIAL)
    (m : OBJECT_MATERIAL) (query : string) (material : OBJECT_MATERIAL) :
  (forall m', m' ∈ before -> material_tag m' <> query) ->
  material_tag m = query ->
  FindMaterial_while (before ++ m :: after) query material
  = (true, copied m material).
Proof.
  intros Hmiss Htag.
  rewrite FindMaterial_while_app, FindMaterial_while_miss by assumption.
  cbn [fst FindMaterial_while]. rewrite Htag, String.eqb_refl. reflexivity.
Qed.

Lemma FindMaterial_hit (before after : list OBJECT_MATERIAL)
    (m : OBJECT_MATERIAL) (query : string) (material : OBJECT_MATERIAL)
    (s : SceneManager) :
  m_objectMaterials s = before ++ m :: after ->
  (forall m', m' ∈ before -> material_tag m' <> query) ->
  material_tag m = query ->
  FindMaterial query material s = (true, copied m material).
Proof.
  intros Hmats Hmiss Htag. unfold FindMaterial. rewrite Hmats.
  rewrite FindMaterial_while_hit by assumption.
  rewrite length_app. cbn [length].
  replace (length before + S (length after))%nat
    with (S (length before + length after)) by lia.
  reflexivity.
Qed.

(** X10.  When a stored material has the tag, [FindMaterial] returns
    [true] and copies the colours and the shininess of the first such
    material into the caller's material, whose tag it leaves alone;
    materials defined later under the same tag are never returned. *)
Theorem FindMaterial_copies_first_match
    (before after : list OBJECT_MATERIAL) (m : OBJECT_MATERIAL)
    (query : string) (material : OBJECT_MATERIAL) (s : SceneManager) :
  m_objectMaterials s = before ++ m :: after ->
  (forall m', m' ∈ before -> material_tag m' <> query) ->
  material_tag m = query ->
  FindMaterial query material s
  = (true,
     {| diffuseColor := diffuseColor m;
        specularColor := specularColor m;
        shininess := shininess m;
        material_tag := material_tag material |}).
Proof. intros Hmats Hmiss Htag. exact (FindMaterial_hit _ _ _ _ _ _ Hmats Hmiss Htag). Qed.

Lemma FindMaterial_miss (query : string) (material : OBJECT_MATERIAL)
    (s : SceneManager) :
  (forall m, m ∈ m_objectMaterials s -> material_tag m <> query) ->
  FindMaterial query material s
  = (match m_objectMaterials s with [] => false | _ :: _ => true end, material).
Proof.
  intros Hmiss. unfold FindMaterial.
  rewrite FindMaterial_while_miss by assumption.
  destruct (m_objectMaterials s); reflexivity.
Qed.

(** X11.  When no stored material has the tag, [FindMaterial] leaves
    the caller's material exactly as it was; its result is [false] for
    an empty list and [true] otherwise. *)
Theorem FindMaterial_miss_keeps_material (query : string)
    (material : OBJECT_MATERIAL) (s : SceneManager) :
  (forall m, m ∈ m_objectMaterials s -> material_tag m <> query) ->
  snd (FindMaterial query material s) = material /\
  fst (FindMaterial query material s)
  = match m_objectMaterials s with [] => false | _ :: _ => true end.
Proof.
  intros Hmiss. rewrite FindMaterial_miss by assumption. split; reflexivity.
Qed.

(** X12.  [DefineObjectMaterials] appends the material ["default"] and
    touches nothing else.  Afterwards ["default"] is found; its values
    are the white material's when no earlier material had that tag; and a
    tag that an earlier material has is answered as before the call. *)
Theorem DefineObjectMaterials_then_FindMaterial (w : World)
    (material : OBJECT_MATERIAL) :
  exists w',
    DefineObjectMaterials w = Ok (tt, w') /\
    m_objectMaterials (this w') = m_objectMaterials (this w) ++ [whiteMat] /\
    m_textureIDs (this w') = m_textureIDs (this w) /\
    m_loadedTextures (this w') = m_loadedTextures (this w) /\
    m_pShaderManager (this w') = m_pShaderManager (this w) /\
    gl w' = gl w /\
    fst (FindMaterial "default" material (this w')) = true /\
    ((forall m, m ∈ m_objectMaterials (this w) -> material_tag m <> "default") ->
     FindMaterial "default" material (this w')
     = (true, copied whiteMat material)) /\
    (forall query m,
        m ∈ m_objectMaterials (this w) -> material_tag m = query ->
        FindMaterial query material (this w')
        = FindMaterial query material (this w)).
Proof.
  eexists. split; [reflexivity|].
  cbn [this gl set_m_objectMaterials m_objectMaterials m_textureIDs
       m_loadedTextures m_pShaderManager].
  repeat (split; [reflexivity|]).
  split; [|split].
  - apply FindMaterial_nonempty. cbn [m_objectMaterials].
    destruct (m_objectMaterials (this w)); discriminate.
  - intros Hmiss.
    apply (FindMaterial_hit (m_objectMaterials (this w)) [] whiteMat);
      [reflexivity | assumption | reflexivity].
  - intros query m Hm Htag. unfold FindMaterial.
    cbn [this set_m_objectMaterials m_objectMaterials].
    rewrite FindMaterial_while_app.
    assert (Hfound : fst (FindMaterial_while (m_objectMaterials (this w))
                            query material) = true)
      by (apply FindMaterial_while_found; exists m; auto).
    rewrite Hfound.
    destruct (m_objectMaterials (this w)) as [|m0 rest]; [inversion Hm|].
    rewrite length_app. reflexivity.
Qed.

Lemma SetShaderMaterial_hit (before after : list OBJECT_MATERIAL)
    (m : OBJECT_MATERIAL) (materialTag : string) (material : OBJECT_MATERIAL)
    (w : World) (sh : ShaderManager) :
  m_pShaderManager (this w) = Some sh ->
  m_objectMaterials (this w) = before ++ m :: after ->
  (forall m', m' ∈ before -> material_tag m' <> materialTag) ->
  material_tag m = materialTag ->
  SetShaderMaterial material materialTag w
  = Ok (tt,
        {| this :=
             set_m_pShaderManager
               (Some (sh ++ [("material.diffuseColor", UVec3 (diffuseColor m));
                             ("material.specularColor", UVec3 (specularColor m));
                             ("material.shininess", UFloat (shininess m))]))
               (this w);
           gl := gl w |}).
Proof.
  intros Hsh Hmats Hmiss Htag. unfold SetShaderMaterial.
  cbv [mbind M_bind member].
  assert (Hlen : (0 <? length (m_objectMaterials (this w)))%nat = true).
  { rewrite Hmats, length_app. cbn [length]. apply Nat.ltb_lt. lia. }
  rewrite Hlen.
  rewrite (FindMaterial_hit before after m materialTag material (this w))
    by assumption.
  cbn [fst snd copied diffuseColor specularColor shininess].
  rewrite (shader_run _ w sh Hsh).
  erewrite shader_run by reflexivity. erewrite shader_run by reflexivity.
  unfold setVec3Value, setFloatValue, push. rewrite <- !app_assoc. reflexivity.
Qed.

(** X13.  With a shader manager attached and a stored material that
    has the tag, [SetShaderMaterial] pushes the diffuse colour, the
    specular colour and the shininess of the first such material, in that
    order and nothing else, whatever its uninitialised local held; the
    three uniforms are then bound to these values. *)
Theorem SetShaderMaterial_pushes_first_match
    (before after : list OBJECT_MATERIAL) (m : OBJECT_MATERIAL)
    (materialTag : string) (material : OBJECT_MATERIAL)
    (w : World) (sh : ShaderManager) :
  m_pShaderManager (this w) = Some sh ->
  m_objectMaterials (this w) = before ++ m :: after ->
  (forall m', m' ∈ before -> material_tag m' <> materialTag) ->
  material_tag m = materialTag ->
  exists sh',
    SetShaderMaterial material materialTag w
    = Ok (tt, {| this := set_m_pShaderManager (Some sh') (this w);
                 gl := gl w |}) /\
    sh' = sh ++ [("material.diffuseColor", UVec3 (diffuseColor m));
                 ("material.specularColor", UVec3 (specularColor m));
                 ("material.shininess", UFloat (shininess m))] /\
    uniform sh' "material.diffuseColor" = Some (UVec3 (diffuseColor m)) /\
    uniform sh' "material.specularColor" = Some (UVec3 (specularColor m)) /\
    uniform sh' "material.shininess" = Some (UFloat (shininess m)).
Proof.
  intros Hsh Hmats Hmiss Htag. eexists.
  split; [apply (SetShaderMaterial_hit before after m materialTag material w sh);
          assumption|].
  split; [reflexivity|]. repeat split; rewrite uniform_app; reflexivity.
Qed.

End MaterialProperties.

Section SetterProperties.

Context `{glm : GLM}.

Lemma shader_null (set : ShaderManager -> ShaderManager) (w : World) :
  m_pShaderManager (this w) = None -> shader set w = Undefined NullPointer.
Proof.
  intros H. unfold shader. cbv [mbind M_bind member]. rewrite H. reflexivity.
Qed.

(** X14.  What a null shader manager does to the setters.  The four
    that test [NULL != m_pShaderManager] ([SetTransformations],
    [SetShaderColor], [SetShaderTexture], [SetTextureUVScale]) return at
    once and change nothing; [SetShaderTexture] does not even look the
    tag up.  [SetupSceneLights] and [SetShaderMaterial] have no such
    test: the first dereferences the null pointer at its first statement,
    the second as soon as the material list is not empty, whatever the
    tag. *)
Theorem setters_without_shader_manager (w : World) :
  m_pShaderManager (this w) = None ->
  (forall scaleXYZ rx ry rz positionXYZ,
      SetTransformations scaleXYZ rx ry rz positionXYZ w = Ok (tt, w)) /\
  (forall r g b a, SetShaderColor r g b a w = Ok (tt, w)) /\
  (forall textureTag, SetShaderTexture textureTag w = Ok (tt, w)) /\
  (forall u v, SetTextureUVScale u v w = Ok (tt, w)) /\
  SetupSceneLights w = Undefined NullPointer /\
  (forall material materialTag,
      m_objectMaterials (this w) <> [] ->
      SetShaderMaterial material materialTag w = Undefined NullPointer).
Proof.
  intros Hnull.
  split; [intros; apply if_shader_null; assumption|].
  split; [intros; apply if_shader_null; assumption|].
  split; [intros; apply if_shader_null; assumption|].
  split; [intros; apply if_shader_null; assumption|].
  split.
  - unfold SetupSceneLights. cbv [mbind M_bind].
    rewrite shader_null by assumption. reflexivity.
  - intros material materialTag Hne. unfold SetShaderMaterial.
    cbv [mbind M_bind member].
    pose proof (FindMaterial_nonempty materialTag material (this w) Hne) as Hfound.
    destruct (m_objectMaterials (this w)) as [|m rest] eqn:Hmats; [contradiction|].
    cbn [length Nat.ltb Nat.leb]. rewrite Hfound.
    rewrite shader_null by assumption. reflexivity.
Qed.

(** X15.  With a shader manager attached and a table within bounds in
    which no populated slot has the tag, [SetShaderTexture] still
    switches texturing on and pushes -1 as the sampler index. *)
Theorem SetShaderTexture_missing_tag (textureTag : string) (w : World)
    (sh : ShaderManager) :
  m_pShaderManager (this w) = Some sh ->
  in_bounds (this w) ->
  (forall t, t ∈ populated (this w) -> tag t <> textureTag) ->
  exists sh',
    SetShaderTexture textureTag w
    = Ok (tt, {| this := set_m_pShaderManager (Some sh') (this w);
                 gl := gl w |}) /\
    sh' = sh ++ [(g_UseTextureName, UInt 1);
                 (g_TextureValueName, USampler2D (-1))] /\
    uniform sh' g_UseTextureName = Some (UInt 1) /\
    uniform sh' g_TextureValueName = Some (USampler2D (-1)).
Proof.
  intros Hsh Hb Hmiss. eexists. split.
  - apply (SetShaderTexture_run textureTag (-1) w sh Hsh).
    rewrite FindTextureSlot_populated by assumption. f_equal.
    apply first_index_none; [lia|].
    intros Hin. apply list_elem_of_fmap in Hin as (t & Htag & Ht).
    apply (Hmiss t Ht). symmetry. exact Htag.
  - split; [reflexivity|]. split; rewrite uniform_app; reflexivity.
Qed.

(** What [SetupSceneLights] pushes does not depend on the world. *)
Lemma SetupSceneLights_pushes :
  exists lights : ShaderManager,
    forall (w : World) (sh : ShaderManager),
      m_pShaderManager (this w) = Some sh ->
      SetupSceneLights w
      = Ok (tt, {| this := set_m_pShaderManager (Some (sh ++ lights)) (this w);
                   gl := gl w |}).
Proof.
  eexists. intros w sh H. destruct w as [[p arr n mats] g]. cbn in H. subst p.
  unfold SetupSceneLights.
  cbv [mbind mret M_bind M_ret shader member update for_loop this gl
       m_pShaderManager set_m_pShaderManager m_textureIDs
       m_loadedTextures m_objectMaterials
       setBoolValue setVec3Value push].
  rewrite <- !app_assoc. cbn [app]. reflexivity.
Qed.

(** X16.  Calling [SetupSceneLights] a second time changes the value no
    uniform is bound to: the light state after two calls is the light
    state after one. *)
Theorem SetupSceneLights_twice (w : World) (sh : ShaderManager) :
  m_pShaderManager (this w) = Some sh ->
  exists sh1 sh2,
    SetupSceneLights w
    = Ok (tt, {| this := set_m_pShaderManager (Some sh1) (this w);
                 gl := gl w |}) /\
    (SetupSceneLights;; SetupSceneLights) w
    = Ok (tt, {| this := set_m_pShaderManager (Some sh2) (this w);
                 gl := gl w |}) /\
    forall name, uniform sh2 name = uniform sh1 name.
Proof.
  intros Hsh. destruct SetupSceneLights_pushes as [lights Hrun].
  exists (sh ++ lights), ((sh ++ lights) ++ lights).
  split; [apply Hrun, Hsh|]. split.
  - cbv [mbind M_bind]. rewrite (Hrun w sh Hsh).
    rewrite (Hrun _ (sh ++ lights)) by reflexivity. reflexivity.
  - intros name. rewrite (uniform_app (sh ++ lights) lights).
    rewrite (uniform_app sh lights).
    destruct (uniform lights name); reflexivity.
Qed.


Lemma keeps_ret {A : Type} (a : A) : keeps_registry (mret a : M A).
Proof. intros w a' w' [= <- <-]. repeat split. Qed.

Lemma keeps_bind {A B : Type} (m : M A) (k : A -> M B) :
  keeps_registry m -> (forall a, keeps_registry (k a)) ->
  keeps_registry (m ≫= k).
Proof.
  intros Hm Hk w b w'. cbv [mbind M_bind].
  destruct (m w) as [[a w1]|why] eqn:Hrun; [|discriminate].
  intros Hrest.
  destruct (Hm w a w1 Hrun) as (Ha & Hn & Hmat & Hgl).
  destruct (Hk a w1 b w' Hrest) as (Ha' & Hn' & Hmat' & Hgl').
  repeat split; congruence.
Qed.

Lemma keeps_member {A : Type} (f : SceneManager -> A) :
  keeps_registry (member f).
Proof. intros w a w' [= <- <-]. repeat split. Qed.

Lemma keeps_call {A : Type} (f : SceneManager -> result A) :
  keeps_registry (call f).
Proof.
  intros w a w'. unfold call. destruct (f (this w)); [|discriminate].
  intros [= <- <-]. repeat split.
Qed.

Lemma keeps_shader (set : ShaderManager -> ShaderManager) :
  keeps_registry (shader set).
Proof.
  intros w a w'. unfold shader. cbv [mbind M_bind member].
  destruct (m_pShaderManager (this w)); [|discriminate].
  intros [= <- <-]. repeat split.
Qed.

Lemma keeps_if_shader (body : M unit) :
  keeps_registry body -> keeps_registry (if_shader body).
Proof.
  intros Hbody w a w'. unfold if_shader. cbv [mbind M_bind member].
  destruct (m_pShaderManager (this w)); [apply Hbody|].
  intros [= <- <-]. repeat split.
Qed.

Lemma keeps_for_loop (count : nat) (i : Z) (body : Z -> M unit) :
  (forall i, keeps_registry (body i)) ->
  keeps_registry (for_loop count i body).
Proof.
  intros Hbody. revert i. induction count as [|k IH]; intros i; cbn [for_loop].
  - apply keeps_ret.
  - apply keeps_bind; [apply Hbody | intros _; apply IH].
Qed.

Ltac keeps :=
  repeat first
    [ apply keeps_ret
    | apply keeps_member
    | apply keeps_call
    | apply keeps_shader
    | apply keeps_if_shader
    | apply keeps_for_loop; intros ?
    | apply keeps_bind; [|intros ?]
    | match goal with
      | |- keeps_registry (if ?b then _ else _) => destruct b
      end ].

Lemma SetTransformations_keeps scaleXYZ rx ry rz positionXYZ :
  keeps_registry (SetTransformations scaleXYZ rx ry rz positionXYZ).
Proof. unfold SetTransformations. cbv zeta. keeps. Qed.

Lemma SetShaderColor_keeps r g b a : keeps_registry (SetShaderColor r g b a).
Proof. unfold SetShaderColor. cbv zeta. keeps. Qed.

Lemma SetShaderTexture_keeps textureTag :
  keeps_registry (SetShaderTexture textureTag).
Proof. unfold SetShaderTexture. keeps. Qed.

Lemma SetTextureUVScale_keeps u v : keeps_registry (SetTextureUVScale u v).
Proof. unfold SetTextureUVScale. keeps. Qed.

Lemma SetShaderMaterial_keeps material materialTag :
  keeps_registry (SetShaderMaterial material materialTag).
Proof. unfold SetShaderMaterial. keeps. Qed.

Lemma SetupSceneLights_keeps : keeps_registry SetupSceneLights.
Proof. unfold SetupSceneLights. keeps. Qed.

(** X17.  None of the six functions that talk to the shader manager
    ever changes a texture slot, the slot counter, the material list or
    anything of OpenGL: whenever one of them returns, these are as they
    were before the call. *)
Theorem setters_keep_registry :
  (forall scaleXYZ rx ry rz positionXYZ,
      keeps_registry (SetTransformations scaleXYZ rx ry rz positionXYZ)) /\
  (forall r g b a, keeps_registry (SetShaderColor r g b a)) /\
  (forall textureTag, keeps_registry (SetShaderTexture textureTag)) /\
  (forall u v, keeps_registry (SetTextureUVScale u v)) /\
  (forall material materialTag,
      keeps_registry (SetShaderMaterial material materialTag)) /\
  keeps_registry SetupSceneLights.
Proof.
  split; [exact SetTransformations_keeps|].
  split; [exact SetShaderColor_keeps|].
  split; [exact SetShaderTexture_keeps|].
  split; [exact SetTextureUVScale_keeps|].
  split; [exact SetShaderMaterial_keeps | exact SetupSceneLights_keeps].
Qed.

End SetterProperties.

Section SceneLoads.

Context `{glm : GLM}.
Variable stbi_load : string -> option stb_image.

(** A load only ever adds OpenGL calls. *)
Lemma CreateGLTexture_gl_calls (filename query : string) (w w' : World)
    (b : bool) :
  CreateGLTexture stbi_load filename query w = Ok (b, w') ->
  exists calls, gl_calls (gl w') = gl_calls (gl w) ++ calls.
Proof.
  unfold CreateGLTexture.
  destruct (stbi_load filename) as [image|];
    [|intros [= <- <-]; exists []; rewrite app_nil_r; reflexivity].
  cbv [mbind M_bind glGenTextures gl_do].
  destruct (colorChannels image =? 3);
    [|destruct (colorChannels image =? 4)].
  1,2: rewrite CreateGLTexture_register_run;
       destruct (texture_at _ _); [|discriminate];
       intros [= <- <-]; cbn [gl gl_calls];
       rewrite <- !app_assoc; eexists; reflexivity.
  intros [= <- <-]. cbn [gl gl_calls]. rewrite <- !app_assoc.
  eexists. reflexivity.
Qed.

(** One load into a table within bounds that has a free slot. *)
Lemma CreateGLTexture_step (filename query : string) (w : World) :
  in_bounds (this w) ->
  m_loadedTextures (this w) < Z.of_nat (length (m_textureIDs (this w))) ->
  exists w',
    CreateGLTexture stbi_load filename query w
    = Ok (loadable stbi_load filename, w') /\
    in_bounds (this w') /\
    length (m_textureIDs (this w')) = length (m_textureIDs (this w)) /\
    m_loadedTextures (this w')
    = m_loadedTextures (this w) + Z.b2z (loadable stbi_load filename) /\
    tag <$> populated (this w')
    = (tag <$> populated (this w))
      ++ (if loadable stbi_load filename then [query] else []) /\
    m_pShaderManager (this w') = m_pShaderManager (this w) /\
    m_objectMaterials (this w') = m_objectMaterials (this w) /\
    exists calls, gl_calls (gl w') = gl_calls (gl w) ++ calls.
Proof.
  intros Hb Hroom. pose proof Hb as [H0 Hlen].
  destruct (CreateGLTexture_returns stbi_load filename query w)
    as (b & w' & Hrun); [right; lia|].
  destruct (CreateGLTexture_result stbi_load filename query w w' b Hrun)
    as [Hres Hthis].
  exists w'. subst b. split; [assumption|].
  pose proof (CreateGLTexture_gl_calls filename query w w' _ Hrun) as Hgl.
  destruct (loadable stbi_load filename).
  - destruct (CreateGLTexture_true_populated stbi_load filename query w w' Hrun)
      as (_ & Hb' & Hpop).
    destruct Hthis as (_ & _ & Hthis).
    split; [assumption|]. rewrite Hpop, fmap_app, Hthis.
    cbn [set_m_loadedTextures set_m_textureIDs m_textureIDs m_loadedTextures
         m_pShaderManager m_objectMaterials fmap list_fmap tag Z.b2z].
    rewrite length_insert. repeat split. assumption.
  - rewrite Hthis, app_nil_r. cbn [Z.b2z]. rewrite Z.add_0_r.
    repeat split; try assumption; apply Hb.
Qed.

(** [LoadSceneTextures], in a table within bounds with four free
    slots, returns whatever the decoder does: it ignores the result of
    each load, so the populated slots gain the tags of those of the four
    images that decode into 3 or 4 channels, in call order and without
    gaps (a missing image moves the later textures to lower slots), and
    its last OpenGL calls bind every populated slot to the texture unit
    of its index. *)
Lemma LoadSceneTextures_run (w : World) :
  in_bounds (this w) ->
  m_loadedTextures (this w) + 4 <= Z.of_nat (length (m_textureIDs (this w))) ->
  exists w' calls,
    LoadSceneTextures stbi_load w = Ok (tt, w') /\
    tag <$> populated (this w')
    = (tag <$> populated (this w))
      ++ map snd (List.filter (fun l => loadable stbi_load (fst l))
                    scene_textures) /\
    in_bounds (this w') /\
    m_pShaderManager (this w') = m_pShaderManager (this w) /\
    m_objectMaterials (this w') = m_objectMaterials (this w) /\
    gl_calls (gl w')
    = gl_calls (gl w) ++ calls ++ unit_bindings (populated (this w')) 0.
Proof.
  intros Hb Hroom. unfold LoadSceneTextures. cbv [mbind M_bind].
  destruct (CreateGLTexture_step "textures/marble.png" "marbleFloor" w Hb)
    as (w1 & -> & Hb1 & Hl1 & Hn1 & Ht1 & Hs1 & Hm1 & c1 & Hc1); [lia|].
  assert (Hbit : forall b : bool, 0 <= Z.b2z b <= 1) by (intros []; cbn; lia).
  pose proof (Hbit (loadable stbi_load "textures/marble.png")).
  destruct (CreateGLTexture_step "textures/berry.jpg" "berry" w1 Hb1)
    as (w2 & -> & Hb2 & Hl2 & Hn2 & Ht2 & Hs2 & Hm2 & c2 & Hc2); [lia|].
  pose proof (Hbit (loadable stbi_load "textures/berry.jpg")).
  destruct (CreateGLTexture_step "textures/pancake_face.jpg" "pancakeFace" w2 Hb2)
    as (w3 & -> & Hb3 & Hl3 & Hn3 & Ht3 & Hs3 & Hm3 & c3 & Hc3); [lia|].
  pose proof (Hbit (loadable stbi_load "textures/pancake_face.jpg")).
  destruct (CreateGLTexture_step "textures/brickWall.png" "brick" w3 Hb3)
    as (w4 & -> & Hb4 & Hl4 & Hn4 & Ht4 & Hs4 & Hm4 & c4 & Hc4); [lia|].
  rewrite (BindGLTextures_run w4 Hb4).
  eexists _, (c1 ++ c2 ++ c3 ++ c4). split; [reflexivity|].
  cbn [this gl gl_calls].
  split.
  - rewrite Ht4, Ht3, Ht2, Ht1. unfold scene_textures.
    cbn [List.filter fst].
    destruct (loadable stbi_load "textures/marble.png"),
             (loadable stbi_load "textures/berry.jpg"),
             (loadable stbi_load "textures/pancake_face.jpg"),
             (loadable stbi_load "textures/brickWall.png");
      cbn [map snd]; rewrite <- ?app_assoc; cbn [app]; rewrite ?app_nil_r;
      reflexivity.
  - split; [assumption|]. split; [congruence|]. split; [congruence|].
    rewrite Hc4, Hc3, Hc2, Hc1, <- !app_assoc. reflexivity.
Qed.

(** X18.  [LoadSceneTextures], in a table within bounds with four free
    slots, returns whatever the decoder does: it ignores the result of
    each load, so the populated slots gain the tags of those of the four
    images that decode into 3 or 4 channels, in call order and without
    gaps (a missing image moves the later textures to lower slots);
    [FindTextureSlot] then answers by the position in that list, and the
    last OpenGL calls bind every populated slot to the texture unit of
    its index. *)
Theorem LoadSceneTextures_loads_what_decodes (w : World) :
  in_bounds (this w) ->
  m_loadedTextures (this w) + 4 <= Z.of_nat (length (m_textureIDs (this w))) ->
  exists w' calls,
    LoadSceneTextures stbi_load w = Ok (tt, w') /\
    tag <$> populated (this w')
    = (tag <$> populated (this w))
      ++ map snd (List.filter (fun l => loadable stbi_load (fst l))
                    scene_textures) /\
    (forall query,
        FindTextureSlot query (this w')
        = Ok (first_index query
                ((tag <$> populated (this w))
                 ++ map snd (List.filter (fun l => loadable stbi_load (fst l))
                               scene_textures)) 0)) /\
    gl_calls (gl w')
    = gl_calls (gl w) ++ calls ++ unit_bindings (populated (this w')) 0.
Proof.
  intros Hb Hroom.
  destruct (LoadSceneTextures_run w Hb Hroom)
    as (w' & calls & Hrun & Htags & Hb' & _ & _ & Hgl).
  exists w', calls. split; [assumption|]. split; [assumption|].
  split; [|assumption].
  intros query. rewrite FindTextureSlot_populated by assumption.
  rewrite Htags. reflexivity.
Qed.

End SceneLoads.

Section RenderingProperties.

Context `{arith : FloatArith}.
Variable stbi_load : string -> option stb_image.



Lemma SetTransformations_pushes_only scaleXYZ rx ry rz positionXYZ :
  pushes_only (SetTransformations scaleXYZ rx ry rz positionXYZ).
Proof.
  intros w sh Hsh _. unfold SetTransformations. cbv zeta.
  rewrite (if_shader_attached _ w sh Hsh), (shader_run _ w sh Hsh).
  eexists. reflexivity.
Qed.

Lemma SetShaderColor_pushes_only r g b a : pushes_only (SetShaderColor r g b a).
Proof.
  intros w sh Hsh _. rewrite (SetShaderColor_run r g b a w sh Hsh).
  eexists. reflexivity.
Qed.

Lemma SetShaderTexture_pushes_only textureTag :
  pushes_only (SetShaderTexture textureTag).
Proof.
  intros w sh Hsh Hb.
  rewrite (SetShaderTexture_run textureTag _ w sh Hsh
             (FindTextureSlot_populated textureTag (this w) Hb)).
  eexists. reflexivity.
Qed.

Lemma SetTextureUVScale_pushes_only u v : pushes_only (SetTextureUVScale u v).
Proof.
  intros w sh Hsh _. unfold SetTextureUVScale.
  rewrite (if_shader_attached _ w sh Hsh), (shader_run _ w sh Hsh).
  eexists. reflexivity.
Qed.

Lemma SetShaderMaterial_pushes_only material materialTag :
  pushes_only (SetShaderMaterial material materialTag).
Proof.
  intros w sh Hsh _. unfold SetShaderMaterial. cbv [mbind M_bind member].
  destruct (m_objectMaterials (this w)) as [|m rest] eqn:Hmats.
  - cbn [length Nat.ltb Nat.leb]. exists sh.
    destruct w as [[p arr n mats] g]. cbn in Hsh. subst p. reflexivity.
  - cbn [length Nat.ltb Nat.leb].
    rewrite (FindMaterial_nonempty materialTag material (this w))
      by (rewrite Hmats; discriminate).
    rewrite (shader_run _ w sh Hsh).
    erewrite shader_run by reflexivity. erewrite shader_run by reflexivity.
    eexists. reflexivity.
Qed.

Lemma in_world_run {A : Type} (m : M A) (sc : Session) (a : A) (w' : World) :
  m (world sc) = Ok (a, w') ->
  in_world m sc = Ok (a, {| world := w'; m_basicMeshes := m_basicMeshes sc |}).
Proof. intros H. unfold in_world. rewrite H. reflexivity. Qed.

Lemma draws_in_world (m : M unit) : pushes_only m -> draws (in_world m) [].
Proof.
  intros Hm sc sh Hsh Hb. destruct (Hm (world sc) sh Hsh Hb) as [sh' Hrun].
  exists sh'. rewrite (in_world_run m sc tt _ Hrun), app_nil_r. reflexivity.
Qed.

Lemma draws_mesh (c : mesh_call) : draws (mesh c) [c].
Proof.
  intros sc sh Hsh _. exists sh.
  destruct sc as [[[p arr n mats] g] ms]. cbn in Hsh. subst p. reflexivity.
Qed.

Lemma draws_bind (m1 m2 : Act unit) (d1 d2 : list mesh_call) :
  draws m1 d1 -> draws m2 d2 -> draws (m1;; m2) (d1 ++ d2).
Proof.
  intros H1 H2 sc sh Hsh Hb. cbv [mbind Act_bind].
  destruct (H1 sc sh Hsh Hb) as [sh1 ->].
  destruct (H2 {| world :=
                    {| this := set_m_pShaderManager (Some sh1) (this (world sc));
                       gl := gl (world sc) |};
                  m_basicMeshes := m_basicMeshes sc ++ d1 |} sh1 eq_refl Hb)
    as [sh2 ->].
  exists sh2. cbn [world this gl m_basicMeshes]. rewrite app_assoc. reflexivity.
Qed.

Lemma draws_for_each (count : nat) (i : Z) (body : Z -> Act unit)
    (d : list mesh_call) :
  (forall i, draws (body i) d) ->
  draws (for_each count i body) (concat (replicate count d)).
Proof.
  intros Hbody. revert i. induction count as [|k IH]; intros i.
  - intros sc sh Hsh _. exists sh.
    destruct sc as [[[p arr n mats] g] ms]. cbn in Hsh. subst p.
    cbn. rewrite app_nil_r. reflexivity.
  - cbn [for_each replicate concat]. apply draws_bind; [apply Hbody | apply IH].
Qed.

Ltac draws :=
  repeat first
    [ apply draws_mesh
    | apply draws_in_world;
      first [ apply SetTransformations_pushes_only
            | apply SetShaderColor_pushes_only
            | apply SetShaderTexture_pushes_only
            | apply SetTextureUVScale_pushes_only
            | apply SetShaderMaterial_pushes_only ]
    | eapply draws_bind ].

Lemma RenderScene_pancake_draws (locals : Z -> OBJECT_MATERIAL) (i : Z) :
  draws (RenderScene_pancake locals i) [DrawCylinderMesh; DrawTorusMesh].
Proof.
  unfold RenderScene_pancake. cbv zeta.
  assert (H : forall m ds ds', draws m ds -> ds = ds' -> draws m ds')
    by (intros m ds ds' Hd <-; exact Hd).
  eapply H; [draws | reflexivity].
Qed.

Lemma RenderScene_draws (locals : Z -> OBJECT_MATERIAL) :
  draws (RenderScene locals) scene_draws.
Proof.
  unfold RenderScene.
  assert (H : forall m ds ds', draws m ds -> ds = ds' -> draws m ds')
    by (intros m ds ds' Hd <-; exact Hd).
  eapply H.
  - repeat first
      [ apply draws_mesh
      | apply draws_for_each; intros i; apply RenderScene_pancake_draws
      | apply draws_in_world;
        first [ apply SetTransformations_pushes_only
              | apply SetShaderColor_pushes_only
              | apply SetShaderTexture_pushes_only
              | apply SetTextureUVScale_pushes_only
              | apply SetShaderMaterial_pushes_only ]
      | eapply draws_bind ].
  - reflexivity.
Qed.

(** X19.  With a shader manager attached and the table within bounds,
    [RenderScene] always runs to its end: whichever textures and
    materials its tags find or miss, it issues its 24 draw calls in the
    same order, and it changes nothing but the shader manager. *)
Theorem RenderScene_never_aborts (locals : Z -> OBJECT_MATERIAL)
    (sc : Session) (sh : ShaderManager) :
  m_pShaderManager (this (world sc)) = Some sh ->
  in_bounds (this (world sc)) ->
  exists sh',
    RenderScene locals sc
    = Ok (tt,
          {| world :=
               {| this := set_m_pShaderManager (Some sh') (this (world sc));
                  gl := gl (world sc) |};
             m_basicMeshes := m_basicMeshes sc ++ scene_draws |}) /\
    length scene_draws = 24%nat.
Proof.
  intros Hsh Hb. destruct (RenderScene_draws locals sc sh Hsh Hb) as [sh' Hrun].
  exists sh'. split; [exact Hrun | reflexivity].
Qed.

End RenderingProperties.

Section PrepareProperties.

Context `{arith : FloatArith}.
Variable stbi_load : string -> option stb_image.

(** The world [PrepareScene] reaches before it turns to the lights, from
    a new scene manager. *)
Lemma PrepareScene_loads (p : option ShaderManager) (g : GLContext) :
  exists w1,
    LoadSceneTextures stbi_load {| this := SceneManager_new p; gl := g |}
    = Ok (tt, w1) /\
    tag <$> populated (this w1)
    = map snd (List.filter (fun l => loadable stbi_load (fst l)) scene_textures) /\
    in_bounds (this w1) /\
    m_pShaderManager (this w1) = p /\
    m_objectMaterials (this w1) = [].
Proof.
  set (w0 := {| this := SceneManager_new p; gl := g |}).
  assert (Hb0 : in_bounds (this w0)) by (unfold in_bounds; cbn; lia).
  destruct (LoadSceneTextures_run stbi_load w0 Hb0)
    as (w1 & calls & Hload & Htags & Hb1 & Hsh1 & Hmat1 & _); [cbn; lia|].
  exists w1. repeat split; assumption || apply Hb1.
Qed.

Lemma PrepareScene_run (sh0 : ShaderManager) (g : GLContext) :
  exists w' sh',
    PrepareScene stbi_load (Session_new (Some sh0) g)
    = Ok (tt, {| world := w'; m_basicMeshes := scene_meshes |}) /\
    m_pShaderManager (this w') = Some sh' /\
    in_bounds (this w') /\
    m_objectMaterials (this w') = [whiteMat] /\
    tag <$> populated (this w')
    = map snd (List.filter (fun l => loadable stbi_load (fst l)) scene_textures).
Proof.
  destruct (PrepareScene_loads (Some sh0) g)
    as (w1 & Hload & Htags & Hb1 & Hsh1 & Hmat1).
  destruct SetupSceneLights_pushes as [lights Hlights].
  eexists _, (sh0 ++ lights).
  split.
  - unfold PrepareScene. cbv [mbind Act_bind].
    rewrite (in_world_run (LoadSceneTextures stbi_load)
               (Session_new (Some sh0) g) tt w1 Hload).
    unfold in_world at 1. cbn [world m_basicMeshes].
    unfold DefineObjectMaterials at 1, update at 1. cbn [this gl].
    unfold in_world at 1. cbn [world m_basicMeshes].
    erewrite (Hlights _ sh0) by (cbn; exact Hsh1).
    cbv [mesh]. cbn [world m_basicMeshes app]. reflexivity.
  - cbn [this set_m_pShaderManager set_m_objectMaterials m_pShaderManager
         m_objectMaterials].
    split; [reflexivity|]. split; [exact Hb1|].
    split; [rewrite Hmat1; reflexivity | exact Htags].
Qed.

(** X20.  From a new scene manager with a shader manager attached,
    [PrepareScene] returns whatever the decoder does.  Afterwards the
    populated slots carry, in call order, the tags of those of the four
    scene images that decode into 3 or 4 channels, the only material is
    ["default"], a shader manager is still attached, and the eight mesh
    kinds have been loaded once each, in the order of the source. *)
Theorem PrepareScene_prepares (sh0 : ShaderManager) (g : GLContext) :
  exists sc',
    PrepareScene stbi_load (Session_new (Some sh0) g) = Ok (tt, sc') /\
    tag <$> populated (this (world sc'))
    = map snd (List.filter (fun l => loadable stbi_load (fst l)) scene_textures) /\
    in_bounds (this (world sc')) /\
    m_objectMaterials (this (world sc')) = [whiteMat] /\
    (exists sh', m_pShaderManager (this (world sc')) = Some sh') /\
    m_basicMeshes sc' = scene_meshes.
Proof.
  destruct (PrepareScene_run sh0 g) as (w' & sh' & Hrun & Hsh & Hb & Hmat & Htags).
  eexists. split; [exact Hrun|]. cbn [world m_basicMeshes].
  split; [exact Htags|]. split; [exact Hb|]. split; [exact Hmat|].
  split; [exists sh'; exact Hsh | reflexivity].
Qed.

(** X21.  From a new scene manager with a shader manager attached,
    preparing the scene and then rendering it runs to its end for every
    decoder: images that are missing or have an unsupported channel count
    abort neither step, the 24 draw calls follow the 8 mesh loads, and
    rendering leaves the slot table and the materials as preparation left
    them. *)
Theorem PrepareScene_then_RenderScene (sh0 : ShaderManager) (g : GLContext)
    (locals : Z -> OBJECT_MATERIAL) :
  exists sc',
    (PrepareScene stbi_load;; RenderScene locals) (Session_new (Some sh0) g)
    = Ok (tt, sc') /\
    m_basicMeshes sc' = scene_meshes ++ scene_draws /\
    tag <$> populated (this (world sc'))
    = map snd (List.filter (fun l => loadable stbi_load (fst l)) scene_textures) /\
    m_objectMaterials (this (world sc')) = [whiteMat].
Proof.
  destruct (PrepareScene_run sh0 g) as (w' & sh' & Hrun & Hsh & Hb & Hmat & Htags).
  destruct (RenderScene_draws locals
              {| world := w'; m_basicMeshes := scene_meshes |} sh' Hsh Hb)
    as [sh'' Hdraw].
  eexists. split.
  - cbv [mbind Act_bind]. rewrite Hrun. exact Hdraw.
  - cbn [world m_basicMeshes this]. split; [reflexivity|].
    split; [exact Htags | exact Hmat].
Qed.

(** X22.  The constructor accepts a null shader manager, but
    [PrepareScene] does not survive one: after the textures are loaded
    and the material is defined, [SetupSceneLights] calls through the
    null pointer. *)
Theorem PrepareScene_null_shader_manager (g : GLContext) :
  PrepareScene stbi_load (Session_new None g) = Undefined NullPointer.
Proof.
  destruct (PrepareScene_loads None g) as (w1 & Hload & _ & _ & Hsh1 & _).
  unfold PrepareScene. cbv [mbind Act_bind].
  rewrite (in_world_run (LoadSceneTextures stbi_load)
             (Session_new None g) tt w1 Hload).
  unfold in_world at 1. cbn [world m_basicMeshes].
  unfold DefineObjectMaterials at 1, update at 1. cbn [this gl].
  unfold in_world at 1. cbn [world m_basicMeshes].
  unfold SetupSceneLights. cbv [mbind M_bind].
  rewrite shader_null by (cbn; exact Hsh1). reflexivity.
Qed.

End PrepareProperties.

(** * Runs on concrete inputs *)

#[local] Existing Instance symbolic.

(** The three worlds are what the runs produce. *)
Lemma textured_world_run :
  LoadSceneTextures sample_images new_world = Ok (tt, textured_world).
Proof. vm_compute. reflexivity. Qed.

Lemma prepared_world_run :
  DefineObjectMaterials textured_world = Ok (tt, prepared_world).
Proof. vm_compute. reflexivity. Qed.

Lemma full_world_run :
  load_each sample_images sixteen_loads new_world
  = Ok (replicate 16 true, full_world).
Proof. vm_compute. reflexivity. Qed.

(** ** C1: [FindMaterial] *)

(** C1, at a failing input.  The scene defines the single material
    ["default"] and then asks for ["glass"].  No stored material has that
    tag, yet [FindMaterial] returns [true] and leaves the caller's
    material as it was, so that [SetShaderMaterial] pushes the contents of
    its uninitialised local. *)
Theorem FindMaterial_found_without_match :
  m_objectMaterials (this prepared_world) = [whiteMat] /\
  material_tag (@whiteMat symbolic) <> "glass" /\
  FindMaterial "glass" stale_material (this prepared_world)
  = (true, stale_material) /\
  exists w',
    SetShaderMaterial stale_material "glass" prepared_world = Ok (tt, w') /\
    uniform (shading_stage w') "material.diffuseColor"
    = Some (UVec3 (diffuseColor stale_material)) /\
    uniform (shading_stage w') "material.shininess"
    = Some (UFloat (shininess stale_material)).
Proof.
  split; [reflexivity|]. split; [discriminate|]. split; [reflexivity|].
  eexists. split; [vm_compute; reflexivity|]. split; reflexivity.
Qed.

(** Where a stored material has the tag, the first one is copied out. *)
Lemma FindMaterial_first_match :
  FindMaterial "default" stale_material (this prepared_world)
  = (true,
     {| diffuseColor := diffuseColor whiteMat;
        specularColor := specularColor whiteMat;
        shininess := shininess whiteMat;
        material_tag := material_tag stale_material |}).
Proof. reflexivity. Qed.

(** ** C2: the capacity of the slot table *)

(** C2, at a failing input.  Sixteen loads succeed and fill the table.
    The seventeenth load of a readable image is not refused: it reaches
    the store into [m_textureIDs[16]], outside the table. *)
Theorem CreateGLTexture_past_capacity :
  load_each sample_images sixteen_loads new_world
  = Ok (replicate 16 true, full_world) /\
  m_loadedTextures (this full_world) = 16 /\
  length (m_textureIDs (this full_world)) = TEXTURE_CAPACITY /\
  CreateGLTexture sample_images "textures/brickWall.png" "brick" full_world
  = Undefined (OutOfBounds 16).
Proof.
  split; [apply full_world_run|].
  split; [reflexivity|]. split; [reflexivity|].
  vm_compute. reflexivity.
Qed.

(** ** C3: [DestroyGLTextures] *)

(** C3, at a failing input.  After the scene's four loads
    [DestroyGLTextures] issues four [glGenTextures] and no
    [glDeleteTextures]; the four slots now hold the new names 5..8, the
    names 1..4 that the loads generated are released nowhere, and the
    count of populated slots is still 4. *)
Theorem DestroyGLTextures_generates_names :
  exists w',
    DestroyGLTextures textured_world = Ok (tt, w') /\
    gl_calls (gl w') =
      gl_calls (gl textured_world)
      ++ [GenTextures 5; GenTextures 6; GenTextures 7; GenTextures 8] /\
    existsb is_DeleteTextures (gl_calls (gl w')) = false /\
    ID <$> take 4 (m_textureIDs (this textured_world)) = [1; 2; 3; 4] /\
    ID <$> take 4 (m_textureIDs (this w')) = [5; 6; 7; 8] /\
    m_loadedTextures (this w') = 4.
Proof.
  eexists. split; [vm_compute; reflexivity|].
  split; [vm_compute; reflexivity|].
  split; [vm_compute; reflexivity|].
  split; [reflexivity|]. split; reflexivity.
Qed.

(** ** C4: the lights *)

(** C4 as stated fails: after [SetupSceneLights] in a new world it is not
    the case that all four point lights are bound inactive (with the spot
    light inactive and the directional light active): point light 0 is
    active. *)
Lemma SetupSceneLights_point_light_0_active :
  ~ (exists w',
       SetupSceneLights new_world = Ok (tt, w') /\
       (forall i, 0 <= i < 4 ->
          uniform (shading_stage w') (pointLight_bActive i)
          = Some (UBool false)) /\
       uniform (shading_stage w') "spotLight.bActive" = Some (UBool false) /\
       uniform (shading_stage w') "directionalLight.bActive"
       = Some (UBool true)).
Proof.
  intros (w' & Hrun & Hpoint & _).
  vm_compute in Hrun. injection Hrun as <-.
  specialize (Hpoint 0 ltac:(lia)). vm_compute in Hpoint. discriminate.
Qed.

Lemma SetupSceneLights_final_state_witness :
  m_pShaderManager (this textured_world) = Some [] /\
  exists sh',
    SetupSceneLights textured_world =
      Ok (tt, {| this := set_m_pShaderManager (Some sh') (this textured_world);
                 gl := gl textured_world |}) /\
    uniform sh' g_UseLightingName = Some (UBool true) /\
    uniform sh' "spotLight.bActive" = Some (UBool false) /\
    uniform sh' (pointLight_bActive 1) = Some (UBool false) /\
    uniform sh' (pointLight_bActive 2) = Some (UBool false) /\
    uniform sh' (pointLight_bActive 3) = Some (UBool false) /\
    uniform sh' "directionalLight.bActive" = Some (UBool true) /\
    uniform sh' (pointLight_bActive 0) = Some (UBool true).
Proof.
  split; [reflexivity|].
  apply (@SetupSceneLights_final_state symbolic textured_world []).
  reflexivity.
Defined.

(** ** C5 to C10 at concrete inputs *)

(** Three loads, the first and the last with the same tag: the tag is
    found at index 0, the lower of its two slots. *)
Lemma FindTextureSlot_first_match_witness :
  exists w,
    loaded sample_images ["berry"; "brick"; "berry"] w /\
    m_loadedTextures (this w) = 3 /\
    FindTextureSlot "berry" (this w) = Ok 0.
Proof.
  destruct (load_each sample_images
              [("textures/berry.jpg", "berry");
               ("textures/brickWall.png", "brick");
               ("textures/berry.jpg", "berry")] new_world)
    as [[bs w]|why] eqn:Hrun; [|vm_compute in Hrun; discriminate].
  assert (Hall : forallb id bs = true)
    by (vm_compute in Hrun; injection Hrun as <- _; reflexivity).
  pose proof (@load_each_loaded symbolic sample_images _ [] new_world w bs
                (loaded_new sample_images (Some []) _) Hrun Hall) as Hl.
  cbn [app map snd] in Hl.
  exists w. split; [assumption|].
  destruct (@FindTextureSlot_first_match symbolic sample_images
              ["berry"; "brick"; "berry"] w "berry" Hl)
    as (Hn & _ & r & Hr & Hmin & _).
  split; [assumption|].
  destruct Hmin as [[_ Hnone] | (H0 & _ & Hbefore)].
  - destruct (Hnone 0%nat). reflexivity.
  - rewrite Hr. f_equal.
    destruct (Z.to_nat r) as [|k] eqn:Hk; [lia|].
    destruct (Hbefore 0%nat); [lia | reflexivity].
Defined.

(** C10 as stated fails: after one successful load in a context that
    generates the name 3000000000, the tag is found in slot 0, slot 0
    holds the handle 3000000000, and [FindTextureID] returns
    -1294967296, the same 32 bits read as an [int], not the handle. *)
Lemma FindTextureID_large_handle :
  exists w,
    CreateGLTexture sample_images "textures/berry.jpg" "berry" large_names_world
    = Ok (true, w) /\
    FindTextureSlot "berry" (this w) = Ok 0 /\
    m_textureIDs (this w) !! 0%nat = Some {| tag := "berry"; ID := 3000000000 |} /\
    FindTextureID "berry" (this w) = Ok (-1294967296) /\
    ~ (forall i t,
         0 <= i ->
         FindTextureSlot "berry" (this w) = Ok i ->
         m_textureIDs (this w) !! Z.to_nat i = Some t ->
         FindTextureID "berry" (this w) = Ok (ID t)).
Proof.
  eexists. split; [vm_compute; reflexivity|].
  split; [reflexivity|]. split; [reflexivity|]. split; [reflexivity|].
  intros H.
  specialize (H 0 {| tag := "berry"; ID := 3000000000 |} ltac:(lia)
                eq_refl eq_refl).
  vm_compute in H. discriminate.
Qed.

Lemma FindTextureID_agrees_witness :
  FindTextureSlot "brick" (this textured_world) = Ok 3 /\
  FindTextureID "brick" (this textured_world) = Ok 4.
Proof.
  split; [reflexivity|].
  destruct (@FindTextureID_agrees_with_FindTextureSlot symbolic
              (this textured_world) "brick") as (_ & Hslot & _).
  destruct (Hslot 3 ltac:(lia) eq_refl) as (t & Ht & Hid & _).
  injection Ht as <-. exact Hid.
Defined.

Lemma SetTransformations_pushes_Compose_witness :
  m_pShaderManager (this new_world) = Some [] /\
  SetTransformations
    (mk_vec3 (Lit 20) (Lit 1) (Lit 10)) (Lit 90) (Lit 0) (Lit 0)
    (mk_vec3 (Lit 0) (Lit 5) (Lit (-8))) new_world
  = Ok (tt,
        {| this :=
             set_m_pShaderManager
               (Some [(g_ModelName,
                       UMat4 (MMul
                                (MMul
                                   (MMul
                                      (MMul
                                         (MTranslate
                                            (mk_vec3 (Lit 0) (Lit 5) (Lit (-8))))
                                         (MRotate (Radians (Lit 0))
                                            (mk_vec3 (Lit 0) (Lit 0) (Lit 1))))
                                      (MRotate (Radians (Lit 0))
                                         (mk_vec3 (Lit 0) (Lit 1) (Lit 0))))
                                   (MRotate (Radians (Lit 90))
                                      (mk_vec3 (Lit 1) (Lit 0) (Lit 0))))
                                (MScale (mk_vec3 (Lit 20) (Lit 1) (Lit 10)))))])
               (this new_world);
           gl := gl new_world |}).
Proof.
  split; [reflexivity|].
  apply (@SetTransformations_pushes_Compose symbolic
           (mk_vec3 (Lit 20) (Lit 1) (Lit 10)) (Lit 90) (Lit 0) (Lit 0)
           (mk_vec3 (Lit 0) (Lit 5) (Lit (-8))) new_world []).
  reflexivity.
Defined.

Lemma SetShader_texture_toggle_witness :
  m_pShaderManager (this textured_world) = Some [] /\
  exists sh',
    SetShaderTexture "marbleFloor" textured_world =
      Ok (tt, {| this := set_m_pShaderManager (Some sh') (this textured_world);
                 gl := gl textured_world |}) /\
    sh' = [(g_UseTextureName, UInt 1); (g_TextureValueName, USampler2D 0)] /\
    uniform sh' g_UseTextureName = Some (UInt 1) /\
    uniform sh' g_TextureValueName = Some (USampler2D 0).
Proof.
  split; [reflexivity|].
  destruct (@SetShader_texture_toggle symbolic sample_images textured_world []
              eq_refl) as (_ & Htexture & _).
  exact (Htexture "marbleFloor" 0 eq_refl).
Defined.

Lemma CreateGLTexture_failure_witness :
  (sample_images "textures/missing.png" = None /\
   exists w',
     CreateGLTexture sample_images "textures/missing.png" "missing"
       textured_world = Ok (false, w') /\
     m_loadedTextures (this w') = m_loadedTextures (this textured_world) /\
     m_textureIDs (this w') = m_textureIDs (this textured_world) /\
     this w' = this textured_world) /\
  (colorChannels <$> sample_images "textures/gray.png" = Some 1 /\
   exists w',
     CreateGLTexture sample_images "textures/gray.png" "gray"
       textured_world = Ok (false, w') /\
     m_loadedTextures (this w') = m_loadedTextures (this textured_world) /\
     m_textureIDs (this w') = m_textureIDs (this textured_world) /\
     this w' = this textured_world).
Proof.
  split; (split; [reflexivity|]).
  - apply (@CreateGLTexture_failure_consumes_no_slot symbolic sample_images).
    left. reflexivity.
  - apply (@CreateGLTexture_failure_consumes_no_slot symbolic sample_images).
    right. eexists. split; [reflexivity|]. split; discriminate.
Defined.

Lemma SetShaderMaterial_empty_list_witness :
  m_objectMaterials (this textured_world) = [] /\
  SetShaderMaterial stale_material "default" textured_world
  = Ok (tt, textured_world).
Proof.
  split; [reflexivity|].
  apply (@SetShaderMaterial_empty_list_pushes_nothing symbolic).
  reflexivity.
Defined.

(** ** The further properties at concrete inputs *)

Lemma textured_world_in_bounds : in_bounds (this textured_world).
Proof. unfold in_bounds. cbn. lia. Qed.

Lemma new_world_in_bounds : in_bounds (this new_world).
Proof. unfold in_bounds. cbn. lia. Qed.

Lemma CreateGLTexture_appends_slot_witness :
  exists w',
    CreateGLTexture sample_images "textures/berry.jpg" "berry" textured_world
    = Ok (true, w') /\
    m_loadedTextures (this w') = 5 /\
    m_textureIDs (this w') !! 4%nat = Some {| tag := "berry"; ID := 5 |}.
Proof.
  destruct (@CreateGLTexture_appends_slot symbolic sample_images
              "textures/berry.jpg" "berry" textured_world)
    as (w' & Hrun & Hn & Hslot & _); [reflexivity | cbn; lia | cbn; lia |].
  exists w'. split; [exact Hrun|]. split; [exact Hn | exact Hslot].
Defined.

Lemma CreateGLTexture_keeps_lookups_witness :
  exists w',
    CreateGLTexture sample_images "textures/berry.jpg" "berry" textured_world
    = Ok (true, w') /\
    FindTextureSlot "berry" (this w') = Ok 1 /\
    FindTextureID "berry" (this w') = Ok 2.
Proof.
  destruct (CreateGLTexture sample_images "textures/berry.jpg" "berry"
              textured_world) as [[b w']|why] eqn:Hrun;
    [|vm_compute in Hrun; discriminate].
  assert (Hb : b = true) by (vm_compute in Hrun; injection Hrun as <- _; reflexivity).
  subst b. exists w'. split; [reflexivity|].
  destruct (@CreateGLTexture_keeps_lookups symbolic sample_images
              "textures/berry.jpg" "berry" textured_world w' "berry" Hrun)
    as [Hslot Hid]; [right; discriminate|].
  rewrite Hslot, Hid. split; reflexivity.
Defined.

Lemma CreateGLTexture_then_lookup_witness :
  exists w',
    CreateGLTexture sample_images "textures/gray.png" "gray" textured_world
    = Ok (false, w') /\
    exists w'',
      CreateGLTexture sample_images "textures/berry.jpg" "syrup" w'
      = Ok (true, w'') /\
      FindTextureSlot "syrup" (this w'') = Ok 4 /\
      FindTextureID "syrup" (this w'') = Ok 6.
Proof.
  destruct (CreateGLTexture sample_images "textures/gray.png" "gray"
              textured_world) as [[b w']|why] eqn:Hgray;
    [|vm_compute in Hgray; discriminate].
  assert (Hw : b = false /\ this w' = this textured_world /\ gl_next_name (gl w') = 6).
  { vm_compute in Hgray. injection Hgray as <- <-. repeat split. }
  destruct Hw as (-> & Hthis & Hnext). exists w'. split; [reflexivity|].
  destruct (CreateGLTexture sample_images "textures/berry.jpg" "syrup" w')
    as [[b w'']|why] eqn:Hrun.
  - assert (Hb : b = true).
    { destruct (@CreateGLTexture_result symbolic sample_images _ _ _ _ _ Hrun)
        as [-> _]. reflexivity. }
    subst b. exists w''. split; [reflexivity|].
    destruct (@CreateGLTexture_then_lookup symbolic sample_images
                "textures/berry.jpg" "syrup" w' w'' Hrun) as [Hslot Hid].
    + rewrite Hthis. reflexivity.
    + rewrite Hslot, Hid, Hthis, Hnext. split; reflexivity.
  - exfalso.
    destruct (@CreateGLTexture_returns symbolic sample_images
                "textures/berry.jpg" "syrup" w') as (b & w'' & Hok).
    + right. rewrite Hthis. cbn. lia.
    + congruence.
Defined.

Lemma load_each_appends_witness :
  exists w',
    load_each sample_images
      [("textures/berry.jpg", "berry"); ("textures/missing.png", "missing");
       ("textures/gray.png", "gray"); ("textures/brickWall.png", "brick")]
      new_world
    = Ok ([true; false; false; true], w') /\
    tag <$> populated (this w') = ["berry"; "brick"].
Proof.
  destruct (load_each sample_images
              [("textures/berry.jpg", "berry"); ("textures/missing.png", "missing");
               ("textures/gray.png", "gray"); ("textures/brickWall.png", "brick")]
              new_world) as [[bs w']|why] eqn:Hrun;
    [|vm_compute in Hrun; discriminate].
  destruct (@load_each_appends symbolic sample_images _ new_world w' bs
              new_world_in_bounds Hrun) as (-> & Htags & _).
  exists w'. split; [reflexivity | exact Htags].
Defined.

Lemma load_each_capacity_witness :
  (exists bs w', load_each sample_images sixteen_loads new_world = Ok (bs, w')) /\
  load_each sample_images
    (sixteen_loads ++ [("textures/brickWall.png", "brick")]) new_world
  = Undefined (OutOfBounds 16).
Proof.
  split.
  - apply (@load_each_capacity symbolic sample_images sixteen_loads new_world
             new_world_in_bounds). cbn. lia.
  - apply (@load_each_capacity symbolic sample_images
             (sixteen_loads ++ [("textures/brickWall.png", "brick")]) new_world
             new_world_in_bounds). cbn. lia.
Defined.

Lemma BindGLTextures_witness :
  exists bindings,
    BindGLTextures textured_world
    = Ok (tt, {| this := this textured_world;
                 gl := {| gl_next_name := gl_next_name (gl textured_world);
                          gl_calls := gl_calls (gl textured_world) ++ bindings |} |}) /\
    bindings !! 6%nat = Some (ActiveTexture 3) /\
    bindings !! 7%nat = Some (BindTexture GL_TEXTURE_2D 4).
Proof.
  destruct (@BindGLTextures_binds_slot_to_unit symbolic textured_world
              textured_world_in_bounds) as (bindings & Hrun & _ & Hunits).
  exists bindings. split; [exact Hrun|].
  apply (Hunits 3%nat {| tag := "brick"; ID := 4 |}); [cbn; lia | reflexivity].
Defined.

Lemma DestroyGLTextures_witness :
  exists w',
    DestroyGLTextures textured_world = Ok (tt, w') /\
    m_loadedTextures (this w') = 4 /\
    FindTextureSlot "brick" (this w') = Ok 3.
Proof.
  destruct (@DestroyGLTextures_keeps_registry symbolic textured_world
              textured_world_in_bounds)
    as (w' & Hrun & Hn & _ & _ & _ & _ & Hfind & _).
  exists w'. split; [exact Hrun|]. split; [exact Hn|].
  rewrite Hfind. reflexivity.
Defined.

Lemma FindTextureSlot_answer_witness :
  FindTextureSlot "pancakeFace" (this textured_world) = Ok 2 /\
  tag <$> m_textureIDs (this textured_world) !! 2%nat = Some "pancakeFace".
Proof.
  split; [reflexivity|].
  destruct (@FindTextureSlot_answer symbolic "pancakeFace" (this textured_world))
    as [Hrange _].
  destruct (Hrange 2 eq_refl) as [Hno | [_ Hslot]]; [discriminate | exact Hslot].
Defined.

Lemma FindMaterial_copies_first_match_witness :
  FindMaterial "default" stale_material
    (set_m_objectMaterials [whiteMat; stale_material; whiteMat] (this new_world))
  = (true,
     {| diffuseColor := diffuseColor whiteMat;
        specularColor := specularColor whiteMat;
        shininess := shininess whiteMat;
        material_tag := "" |}).
Proof.
  apply (@FindMaterial_copies_first_match symbolic [] [stale_material; whiteMat]
           whiteMat "default" stale_material); [reflexivity | | reflexivity].
  intros m' Hm'. inversion Hm'.
Defined.

Lemma FindMaterial_miss_witness :
  snd (FindMaterial "glass" stale_material (this prepared_world)) = stale_material /\
  fst (FindMaterial "glass" stale_material (this prepared_world)) = true.
Proof.
  apply (@FindMaterial_miss_keeps_material symbolic "glass" stale_material
           (this prepared_world)).
  intros m Hm. apply list_elem_of_singleton in Hm as ->. discriminate.
Defined.

Lemma SetShaderMaterial_pushes_first_match_witness :
  exists sh',
    SetShaderMaterial stale_material "default" prepared_world
    = Ok (tt, {| this := set_m_pShaderManager (Some sh') (this prepared_world);
                 gl := gl prepared_world |}) /\
    uniform sh' "material.shininess" = Some (UFloat (Lit 32)).
Proof.
  destruct (@SetShaderMaterial_pushes_first_match symbolic [] [] whiteMat
              "default" stale_material prepared_world [])
    as (sh' & Hrun & _ & _ & _ & Hshine);
    [reflexivity | reflexivity | | reflexivity |].
  - intros m' Hm'. inversion Hm'.
  - exists sh'. split; [exact Hrun | exact Hshine].
Defined.

Lemma setters_without_shader_manager_witness :
  SetShaderTexture "marbleFloor" detached_world = Ok (tt, detached_world) /\
  SetShaderColor (Lit 1) (Lit 0) (Lit 0) (Lit 1) detached_world
  = Ok (tt, detached_world) /\
  SetupSceneLights detached_world = Undefined NullPointer.
Proof.
  destruct (@setters_without_shader_manager symbolic detached_world eq_refl)
    as (_ & Hcolor & Htexture & _ & Hlights & _).
  split; [apply Htexture|]. split; [apply Hcolor | exact Hlights].
Defined.

Lemma CreateGLTexture_calls_witness :
  exists w',
    CreateGLTexture sample_images "textures/gray.png" "gray" new_world
    = Ok (false, w') /\
    gl_calls (gl w')
    = [GenTextures 1;
       BindTexture GL_TEXTURE_2D 1;
       TexParameteri GL_TEXTURE_2D GL_TEXTURE_WRAP_S GL_REPEAT;
       TexParameteri GL_TEXTURE_2D GL_TEXTURE_WRAP_T GL_REPEAT;
       TexParameteri GL_TEXTURE_2D GL_TEXTURE_MIN_FILTER GL_LINEAR;
       TexParameteri GL_TEXTURE_2D GL_TEXTURE_MAG_FILTER GL_LINEAR].
Proof.
  destruct (@CreateGLTexture_calls_by_channels symbolic sample_images
              "textures/gray.png" "gray"
              {| width := 1; height := 1; colorChannels := 1; pixels := [128] |}
              new_world eq_refl)
    as (w' & Hrun & _ & Hcalls); [cbn; lia | cbn; lia |].
  exists w'. split; [exact Hrun | exact Hcalls].
Defined.

Lemma SetShaderTexture_missing_tag_witness :
  exists sh',
    SetShaderTexture "syrup" textured_world
    = Ok (tt, {| this := set_m_pShaderManager (Some sh') (this textured_world);
                 gl := gl textured_world |}) /\
    uniform sh' g_UseTextureName = Some (UInt 1) /\
    uniform sh' g_TextureValueName = Some (USampler2D (-1)).
Proof.
  destruct (@SetShaderTexture_missing_tag symbolic "syrup" textured_world []
              eq_refl textured_world_in_bounds)
    as (sh' & Hrun & _ & Hflag & Hsampler).
  - intros t Ht. cbn in Ht.
    repeat (apply elem_of_cons in Ht as [-> | Ht]; [discriminate|]).
    inversion Ht.
  - exists sh'. split; [exact Hrun|]. split; [exact Hflag | exact Hsampler].
Defined.

Lemma SetupSceneLights_twice_witness :
  exists sh1 sh2,
    SetupSceneLights new_world
    = Ok (tt, {| this := set_m_pShaderManager (Some sh1) (this new_world);
                 gl := gl new_world |}) /\
    (SetupSceneLights;; SetupSceneLights) new_world
    = Ok (tt, {| this := set_m_pShaderManager (Some sh2) (this new_world);
                 gl := gl new_world |}) /\
    forall name, uniform sh2 name = uniform sh1 name.
Proof.
  apply (@SetupSceneLights_twice symbolic new_world []). reflexivity.
Defined.

Lemma LoadSceneTextures_witness :
  exists w',
    LoadSceneTextures without_marble new_world = Ok (tt, w') /\
    tag <$> populated (this w') = ["berry"; "pancakeFace"; "brick"] /\
    FindTextureSlot "berry" (this w') = Ok 0 /\
    FindTextureSlot "marbleFloor" (this w') = Ok (-1).
Proof.
  destruct (@LoadSceneTextures_loads_what_decodes symbolic without_marble
              new_world new_world_in_bounds)
    as (w' & calls & Hrun & Htags & Hfind & _); [cbn; lia|].
  exists w'. split; [exact Hrun|]. split; [exact Htags|].
  rewrite !Hfind. split; reflexivity.
Defined.

Lemma RenderScene_never_aborts_witness :
  exists sh',
    @RenderScene symbolic_terms symbolic_arith stale_locals new_session
    = Ok (tt,
          {| world :=
               {| this := set_m_pShaderManager (Some sh') (this (world new_session));
                  gl := gl (world new_session) |};
             m_basicMeshes := scene_draws |}) /\
    length scene_draws = 24%nat.
Proof.
  apply (@RenderScene_never_aborts symbolic_terms symbolic_arith stale_locals
           new_session []); [reflexivity|].
  unfold in_bounds. cbn. lia.
Defined.
